(** * WhatsApp-Webhook: a shallow embedding of the relay's core

    The development follows the repository file by file:
    - [Similarity]        : similarity.js  (threshold test on the cosine score)
    - [Schema]            : src/schema.js  (the user table)
    - [Database], [Cache] : database.js    (identity table scan, Redis cache)
    - [Main]              : main.js        (outbound delivery, the turn with
                                            its polling loop, the handshake)
    - [Json], [Webhook]   : main.js        (the message webhook and its [main])

    JavaScript numbers are IEEE-754 binary64 values; they are modelled by
    the Standard Library's [spec_float] at precision 53 and maximal
    exponent 1024, so that NaN, the infinities and the signed zeros behave
    as they do in the running program. *)

From Stdlib Require Import ZArith Bool.
From Stdlib Require Import Floats.SpecFloat.
From stdpp Require Import gmap strings list fin_maps.

(** ** JavaScript numbers *)

Module JSNumber.

Definition number : Type := spec_float.

Definition prec : Z := 53.
Definition emax : Z := 1024.

Definition NaN : number := S754_nan.
Definition zero : number := S754_zero false.

Definition mul (x y : number) : number := SFmul prec emax x y.
Definition add (x y : number) : number := SFadd prec emax x y.
Definition div (x y : number) : number := SFdiv prec emax x y.
Definition sqrt (x : number) : number := SFsqrt prec emax x.

(** [a > b] of JavaScript: false as soon as one side is NaN. *)
Definition gt (a b : number) : bool := SFltb b a.
Definition le (a b : number) : bool := SFleb a b.

Definition is_nan (x : number) : bool :=
  match x with S754_nan => true | _ => false end.

Definition is_zero (x : number) : bool :=
  match x with S754_zero _ => true | _ => false end.

End JSNumber.

(** ** similarity.js *)

Module Similarity.
Import JSNumber.

(** [const threshold = 0.81]: the binary64 value nearest to 0.81,
    0x1.9eb851eb851ecp-1 = 7295831396340204 * 2^-53. *)
Definition threshold : number := S754_finite false 7295831396340204 (-53).

Section Evaluator.

(** The embedding endpoint ([openai.embeddings.create]) and the
    cosine-similarity package are external to the repository. *)
Variable getEmbedding : string -> list number.
Variable cosineSimilarity : list number -> list number -> number.

Definition getSimilarity (string1 string2 : list number) : number :=
  let similarity := cosineSimilarity string1 string2 in
  similarity.

Definition similarity (query value : string) : string :=
  let embeddedQuery := getEmbedding query in
  let embeddedValue := getEmbedding value in
  let similarity := getSimilarity embeddedQuery embeddedValue in
  if gt similarity threshold then "yes" else "no".

(** The score the evaluator compares with the threshold. *)
Definition score (query value : string) : number :=
  getSimilarity (getEmbedding query) (getEmbedding value).

End Evaluator.

End Similarity.

(** ** The cosine-similarity package *)

Module CosineSimilarity.
Import JSNumber.

(** Modelled from the spec: the componentwise products of dot(A,B); the
    package's source is not under src/.  Embeddings have one fixed
    dimension; a component the second vector lacks is read as JavaScript
    reads it, [undefined], which is NaN in a product. *)
Fixpoint products (x y : list number) : list number :=
  match x with
  | [] => []
  | a :: x' => mul a (hd NaN y) :: products x' (tl y)
  end.

(** Modelled from the spec: dot(A,B), the products summed from 0, left
    to right; the package's source is not under src/. *)
Definition dotp (x y : list number) : number :=
  fold_left add (products x y) zero.

(** Modelled from the spec: ||A||, the square root of dot(A,A); the
    package's source is not under src/. *)
Definition magnitude (v : list number) : number :=
  sqrt (dotp v v).

(** Modelled from the spec: the cosine-similarity package that
    [getSimilarity] calls is not under src/.  Section 4.2 gives what it
    computes: dot(A,B) / (||A|| * ||B||), and for a vector of zero
    magnitude, without dividing, the similarity 0. *)
Definition cosineSimilarity (A B : list number) : number :=
  if is_zero (magnitude A) || is_zero (magnitude B)
  then zero
  else div (dotp A B) (mul (magnitude A) (magnitude B)).

(** A vector of zero magnitude: every component is a (signed) zero. *)
Definition zero_vector (v : list number) : Prop :=
  Forall (fun a => is_zero a = true) v.

End CosineSimilarity.

(** ** src/schema.js *)

Module Schema.

(** [pgTable("user", { id: text("id").primaryKey(), thread_id: text("thread_id") })].
    [thread_id] is nullable. *)
Record user : Type := { id : string; thread_id : option string }.

End Schema.

(** ** database.js: the identity table *)

Module Database.

(** The table as the rows [select] returns them, oldest first. *)
Definition table : Type := list Schema.user.

(** [{found, thread_id}]; [None] is JavaScript's [undefined]. *)
Record result : Type := { found : bool; thread_id : option string }.

Inductive db_error : Type :=
| UniqueViolation (key : string).

Section Bcrypt.

(** [bcrypt.compareSync(data, encrypted)] *)
Variable compareSync : string -> string -> bool.

(** The [for] loop of [checkDatabase]; the state is [(i, found)] as it
    stands when the loop is left. *)
Fixpoint scan (target : string) (users : table) (i : nat) : nat * bool :=
  match users with
  | [] => (i, false)
  | u :: rest =>
      let hash := Schema.id u in
      let found := compareSync target hash in
      if found then (i, found) else scan target rest (S i)
  end.

Definition checkDatabase (target : string) (db : table) : result :=
  let thread_id := None in
  let users := db in
  let '(_, found) := scan target users 0 in
  {| found := found; thread_id := thread_id |}.

(** The row [users[i]] at which the loop is left by [break]. *)
Definition matched (target : string) (db : table) : option Schema.user :=
  let '(i, found) := scan target db 0 in
  if found then db !! i else None.

End Bcrypt.

(** [db.insert(user).values({ id: user_id, thread_id: user_thread_id })];
    the primary key rejects an [id] that is already stored. *)
Definition updateDatabase (user_id user_thread_id : string) (db : table)
  : db_error + table :=
  if decide (user_id ∈ Schema.id <$> db)
  then inl (UniqueViolation user_id)
  else inr (db ++ [ {| Schema.id := user_id;
                       Schema.thread_id := Some user_thread_id |} ]).

End Database.

(** ** database.js: the Redis cache *)

Module Cache.

(** [{found, response}]; [None] is the [null] that [client.get] returns
    for a key that does not exist. *)
Record result : Type := { found : bool; response : option string }.

Section Lookup.

(** [similarity(query, key)] of similarity.js *)
Variable similarity : string -> string -> string.

(** The reply of [client.keys('*')]: the stored keys in the order Redis
    lists them for this content. *)
Variable keys : gmap string string -> list string.

(** The [for] loop of [checkCache], from the state in which [found] is
    false and [response] is "error".  The second component lists the
    keys handed to [similarity], in order. *)
Fixpoint scan (query : string) (store : gmap string string)
         (ks : list string) : result * list string :=
  match ks with
  | [] => ({| found := false; response := Some "error" |}, [])
  | key :: rest =>
      let check := similarity query key in
      if String.eqb check "yes"
      then ({| found := true; response := store !! key |}, [key])
      else let '(r, compared) := scan query store rest in
           (r, key :: compared)
  end.

Definition checkCache (query : string) (store : gmap string string) : result :=
  fst (scan query store (keys store)).

Definition compared (query : string) (store : gmap string string) : list string :=
  snd (scan query store (keys store)).

End Lookup.

(** [updateCache]: [client.set(query, response)] inside try/catch.
    [set_ok] tells whether the command went through; when it throws the
    store is as before and a line is logged. *)
Definition updateCache (set_ok : bool) (query response : string)
           (store : gmap string string) : gmap string string * list string :=
  if set_ok
  then (<[query := response]> store, [])
  else (store, ["MINOR ERROR UPDATING CACHE!"]).

End Cache.

(** ** main.js *)

Module Main.

(** [const saltRounds = 10] *)
Definition saltRounds : nat := 10.

(** *** Outbound delivery: [sendMessage] *)

Record http_response : Type := { status : Z }.

(** The error axios rejects with; [response] is present when the server
    answered (with a status outside 2xx) and absent when no answer came
    back at all. *)
Record axios_error : Type := { response : option http_response }.

Inductive delivery : Type :=
| Delivered
| Rejected (error : axios_error).

Inductive effect : Type :=
| Capture (distinctId event : string)
| ConsoleLog (line : string)
| ProcessExit.

Definition delivery_error_line : string :=
  "ERROR: Error occured while sending users message. Check WhatsApp number and API access token!".

(** The callback given to [.catch]. *)
Definition on_rejected (error : axios_error) : list effect :=
  match response error with
  | Some _ => [ConsoleLog delivery_error_line; ProcessExit]
  | None => []
  end.

Section Send.

(** [bcrypt.hashSync(data, rounds)]; the third argument is the salt
    the call draws. *)
Variable hashSync : string -> nat -> string -> string.

(** What one call of [sendMessage] does, given the salt drawn and the
    fate of the POST.  The rejection callback runs after the
    synchronous part. *)
Definition sendMessage (salt : string) (outcome : delivery)
           (user_number_id phone_number_id user_question from message : string)
  : list effect :=
  let hashed_id := hashSync user_number_id saltRounds salt in
  Capture hashed_id "Message sent to user" ::
  match outcome with
  | Delivered => []
  | Rejected error => on_rejected error
  end.

End Send.

Definition exits (effects : list effect) : bool :=
  existsb (fun e => match e with ProcessExit => true | _ => false end) effects.

Definition logs (effects : list effect) : bool :=
  existsb (fun e => match e with ConsoleLog _ => true | _ => false end) effects.

(** Credential-level rejections of the transport: 401 Unauthorized and
    403 Forbidden. *)
Definition auth_class (error : axios_error) : bool :=
  match response error with
  | Some r => (status r =? 401)%Z || (status r =? 403)%Z
  | None => false
  end.

(** *** The conversation turn: [chatbot] *)

(** The stores and the messages handed to [sendMessage] so far. *)
Record world : Type := {
  users : Database.table;
  cache : gmap string string;
  outbox : list string;
  console : list string
}.

Record logbook : Type := {
  query_exists : bool;
  query_message : string;
  user_exists : bool;
  user_id : string;
  thread_id : string
}.

(** How a turn stands: it reached [log(logbook)], it ended in the
    [catch] branch, or it is still inside the polling loop. *)
Inductive outcome : Type :=
| Logged (w : world) (l : logbook)
| Caught (w : world) (error : Database.db_error)
| Polling (w : world).

Definition send (message : string) (w : world) : world :=
  {| users := users w; cache := cache w;
     outbox := outbox w ++ [message]; console := console w |}.

(** The [while (runStatus.status !== "completed")] loop.  [retrieve n] is
    the status the [n]-th call of [runs.retrieve] reports; [fuel] bounds
    the iterations the model follows.  The result is the index of the
    call that reported "completed". *)
Fixpoint poll (fuel : nat) (retrieve : nat -> string) (n : nat) : option nat :=
  if String.eqb (retrieve n) "completed" then Some n
  else match fuel with
       | O => None
       | S fuel' => poll fuel' retrieve (S n)
       end.

Section Chatbot.

Variable compareSync : string -> string -> bool.
Variable hashSync : string -> nat -> string -> string.
(** [fs.readFile(path, 'utf8', ...)]: [None] when the read fails. *)
Variable readFile : string -> option string.

(** The [else] branch's two nested reads.  Their callbacks run when the
    reads complete, which the turn does not await: the two sends are
    recorded here in the order the callbacks issue them, at the point the
    first read is issued. *)
Definition onboarding (w : world) : world :=
  match readFile "./GDPR.txt" with
  | None => w
  | Some data =>
      let w := send data w in
      match readFile "./how-to-use.txt" with
      | None => w
      | Some data => send data w
      end
  end.

(** The row a first-time sender's turn stores (lines 95 and 141): the
    hash of the raw identifier under the salt drawn, with the thread's id.
    A sender is given as (raw identifier, salt, thread). *)
Definition record_of (sender : string * string * string) : Schema.user :=
  let '(raw, salt, thread) := sender in
  {| Schema.id := hashSync raw saltRounds salt;
     Schema.thread_id := Some thread |}.

(** Lines 94-142: look the sender up, hash the identifier, and record
    a first-time sender under the thread just created. *)
Definition resolve (salt thread : string) (user_number_id : string) (w : world)
  : Database.db_error * world + (bool * string * world) :=
  let result := Database.checkDatabase compareSync user_number_id (users w) in
  let user_number_id := hashSync user_number_id saltRounds salt in
  let found := Database.found result in
  if found then inr (found, user_number_id, w)
  else
    let w := onboarding w in
    match Database.updateDatabase user_number_id thread (users w) with
    | inl e => inl (e, w)
    | inr db =>
        inr (found, user_number_id,
             {| users := db; cache := cache w;
                outbox := outbox w; console := console w |})
    end.

(** One call of [chatbot].  [salt] is the salt [hashSync] draws,
    [thread] the id of the thread [threads.create] returns, [retrieve]
    the run's successive statuses, [answer] the text of the newest
    message once the run has completed, [set_ok] whether the cache
    write goes through.  The calls to the completion service are taken to
    answer; of the errors the [try] can catch, the outcome records the
    insert the table refuses. *)
Definition chatbot (fuel : nat) (salt thread : string)
           (retrieve : nat -> string) (answer : string) (set_ok : bool)
           (user_number_id phone_number_id user_question from : string)
           (queryExists : bool) (w : world) : outcome :=
  match resolve salt thread user_number_id w with
  | inl (e, w) => Caught w e
  | inr (found, user_number_id, w) =>
      let l := {| query_exists := queryExists;
                  query_message := user_question;
                  user_exists := found;
                  user_id := user_number_id;
                  thread_id := thread |} in
      if negb queryExists then
        match poll fuel retrieve 0 with
        | None => Polling w
        | Some _ =>
            let chatbot_response := answer in
            let w := send chatbot_response w in
            let '(store, lines) :=
              Cache.updateCache set_ok user_question chatbot_response (cache w) in
            Logged {| users := users w; cache := store;
                      outbox := outbox w;
                      console := console w ++ lines |} l
        end
      else Logged w l
  end.

End Chatbot.

(** *** The verification handshake: [app.get("/webhook")] *)

(** A value of [req.query]: absent, a string, or an array or nested
    object (which is truthy and equal to no string). *)
Inductive query_value : Type :=
| QUndefined
| QString (s : string)
| QOther.

Definition truthy (v : query_value) : bool :=
  match v with
  | QUndefined => false
  | QString s => negb (String.eqb s "")
  | QOther => true
  end.

(** [v === s] for a string [s] *)
Definition strict_eq_string (v : query_value) (s : string) : bool :=
  match v with
  | QString s' => String.eqb s' s
  | _ => false
  end.

(** [v === process.env.X]; an unset variable reads as [undefined]. *)
Definition strict_eq_env (v : query_value) (env : option string) : bool :=
  match v, env with
  | QUndefined, None => true
  | QString s, Some s' => String.eqb s s'
  | _, _ => false
  end.

Record http_reply : Type := { code : Z; body : query_value }.

(** [res.status(200).send(challenge)] and [res.sendStatus(403)]. *)
Definition accepted (challenge : query_value) : option http_reply :=
  Some {| code := 200; body := challenge |}.

Definition rejected : option http_reply :=
  Some {| code := 403; body := QString "Forbidden" |}.

(** The handler; [None] when it returns without answering. *)
Definition get_webhook (VERIFY_TOKEN : option string)
           (hub_mode hub_verify_token hub_challenge : query_value)
  : option http_reply :=
  let verify_token := VERIFY_TOKEN in
  let mode := hub_mode in
  let token := hub_verify_token in
  let challenge := hub_challenge in
  if truthy mode && truthy token then
    if strict_eq_string mode "subscribe" && strict_eq_env token verify_token
    then accepted challenge
    else rejected
  else None.

End Main.

(** ** bcrypt

    The library is external.  What it hashes and compares is the key: the
    first 72 bytes of the data, the bytes after them being ignored. *)

Module Bcrypt.

Definition key_bytes : nat := 72.

Fixpoint first_bytes (n : nat) (data : string) : string :=
  match n, data with
  | S n', String c rest => String c (first_bytes n' rest)
  | _, _ => EmptyString
  end.

Definition key (data : string) : string := first_bytes key_bytes data.

End Bcrypt.

(** ** Sample collaborators

    Stand-ins for the external services, on which the definitions above
    can be run: a transparent "hash" that keeps the salt character in
    front of the key of the data, an embedding that tells two topics
    apart, and the key order of the map's listing. *)

Module Samples.
Import JSNumber.

(** 1.0 as a binary64 value. *)
Definition one : number := S754_finite false 4503599627370496 (-52).

Definition hashSync (data : string) (rounds : nat) (salt : string) : string :=
  match salt with
  | String c _ => String c (Bcrypt.key data)
  | EmptyString => String (Ascii.ascii_of_nat 36) (Bcrypt.key data)
  end.

Definition compareSync (data encrypted : string) : bool :=
  match encrypted with
  | String _ d => String.eqb (Bcrypt.key data) d
  | EmptyString => false
  end.

Definition getEmbedding (input : string) : list number :=
  if String.prefix "What" input then [one; zero] else [zero; one].

Definition similarity : string -> string -> string :=
  Similarity.similarity getEmbedding CosineSimilarity.cosineSimilarity.

Definition keys (store : gmap string string) : list string :=
  (map_to_list store).*1.

Definition readFile (path : string) : option string :=
  if String.eqb path "./GDPR.txt" then Some "GDPR notice"
  else if String.eqb path "./how-to-use.txt" then Some "How to use"
  else None.

Definition fresh : Main.world :=
  {| Main.users := []; Main.cache := ∅; Main.outbox := []; Main.console := [] |}.

End Samples.

(** ** Request bodies

    What [body_parser.json()] leaves in [req.body], and the values that
    reading its properties yields. *)

Module Json.
Import JSNumber.

#[local] Set Warnings "-register-all".

Inductive value : Type :=
| JUndefined
| JNull
| JBool (b : bool)
| JNum (n : number)
| JStr (s : string)
| JArr (items : list value)
| JObj (fields : gmap string value).

Inductive exn : Type :=
| TypeError.

(** Truthiness, as [if] and [&&] test it. *)
Definition truthy (v : value) : bool :=
  match v with
  | JUndefined | JNull => false
  | JBool b => b
  | JNum n => negb (is_zero n || is_nan n)
  | JStr s => negb (String.eqb s "")
  | JArr _ | JObj _ => true
  end.

(** [v.name], for the names the handler reads (none of them is defined on
    a prototype): reading a property of [undefined] or [null] throws, an
    object yields the field or [undefined], any other value [undefined]. *)
Definition get (v : value) (name : string) : exn + value :=
  match v with
  | JUndefined | JNull => inl TypeError
  | JObj fields => inr (default JUndefined (fields !! name))
  | _ => inr JUndefined
  end.

(** [v[0]] *)
Definition first (v : value) : exn + value :=
  match v with
  | JUndefined | JNull => inl TypeError
  | JObj fields => inr (default JUndefined (fields !! "0"))
  | JArr items => inr (default JUndefined (head items))
  | JStr (String c _) => inr (JStr (String c EmptyString))
  | _ => inr JUndefined
  end.

Definition bind {A B : Type} (m : exn + A) (k : A -> exn + B) : exn + B :=
  match m with
  | inl e => inl e
  | inr a => k a
  end.

End Json.

(** ** main.js: the message webhook, [app.post("/webhook")] *)

Module Webhook.
Import Main Json.

Notation "x <~ m ; k" := (Json.bind m (fun x => k))
  (at level 20, m at level 100, k at level 200, only parsing,
   right associativity).

(** [req.body.entry[0].changes[0]] *)
Definition change (body : value) : exn + value :=
  entry <~ get body "entry" ;
  entry0 <~ first entry ;
  changes <~ get entry0 "changes" ;
  first changes.

(** The condition of the inner [if]: each conjunct is evaluated only when
    those before it are truthy. *)
Definition has_message (body : value) : exn + bool :=
  entry <~ get body "entry" ;
  if truthy entry then
    entry0 <~ first entry ;
    changes <~ get entry0 "changes" ;
    if truthy changes then
      change0 <~ first changes ;
      if truthy change0 then
        value <~ get change0 "value" ;
        messages <~ get value "messages" ;
        if truthy messages then
          message0 <~ first messages ;
          inr (truthy message0)
        else inr false
      else inr false
    else inr false
  else inr false.

(** What [main] reads from the body before its first [await]. *)
Record fields : Type := {
  phone_number_id : value;
  user_number_id : value;
  from : value;
  user_question : value
}.

(** Lines 216-219. *)
Definition extract (body : value) : exn + fields :=
  change0 <~ change body ;
  value <~ get change0 "value" ;
  metadata <~ get value "metadata" ;
  phone_number_id <~ get metadata "phone_number_id" ;
  contacts <~ get value "contacts" ;
  contact0 <~ first contacts ;
  user_number_id <~ get contact0 "wa_id" ;
  messages <~ get value "messages" ;
  message0 <~ first messages ;
  from <~ get message0 "from" ;
  text <~ get message0 "text" ;
  user_question <~ get text "body" ;
  inr {| phone_number_id := phone_number_id;
         user_number_id := user_number_id;
         from := from;
         user_question := user_question |}.

(** What the handler answers, and what became of [main()] when it was
    called: [None] when it was not, [Some (inl _)] when it threw while
    reading the body (a rejected promise nobody awaits), [Some (inr _)]
    when it went on with the fields read. *)
Record reply : Type := {
  status : Z;
  job : option (exn + fields)
}.

(** The handler.  [inl] when the handler itself throws, before any
    [res.sendStatus]. *)
Definition post_webhook (body : value) : exn + reply :=
  object <~ get body "object" ;
  if truthy object then
    launch <~ has_message body ;
    if launch
    then inr {| status := 200; job := Some (extract body) |}
    else inr {| status := 200; job := None |}
  else inr {| status := 404; job := None |}.

(** A notification carrying one message, as the handler reads it:
    [{object, entry: [{changes: [{value: {metadata: {phone_number_id},
    contacts: [{wa_id}], messages: [message]}}]}]}]. *)
Definition notification (pid wa_id : string) (message : value) : value :=
  let contact : value := JObj (<["wa_id" := JStr wa_id]> ∅) in
  let metadata : value := JObj (<["phone_number_id" := JStr pid]> ∅) in
  let change_value : value :=
    JObj (<["metadata" := metadata]>
          (<["contacts" := JArr [contact]]>
           (<["messages" := JArr [message]]> ∅))) in
  let change : value := JObj (<["value" := change_value]> ∅) in
  let entry : value := JObj (<["changes" := JArr [change]]> ∅) in
  JObj (<["object" := JStr "whatsapp_business_account"]>
        (<["entry" := JArr [entry]]> ∅)).

(** A text message: [{from, text: {body}}]. *)
Definition text_message (sender text : string) : value :=
  JObj (<["from" := JStr sender]>
        (<["text" := JObj (<["body" := JStr text]> ∅)]> ∅)).

(** *** The turn: [main] inside the handler *)

(** How the turn stands, and the cached response handed to
    [sendMessage] by the last [if (found)], when that line is reached. *)
Record turn : Type := {
  stands : outcome;
  cached : option (option string)
}.

Section Turn.

Variable compareSync : string -> string -> bool.
Variable hashSync : string -> nat -> string -> string.
Variable readFile : string -> option string.
Variable similarity : string -> string -> string.
Variable keys : gmap string string -> list string.

(** Lines 221-236, for fields that are strings. *)
Definition main (fuel : nat) (salt thread : string)
           (retrieve : nat -> string) (answer : string) (set_ok : bool)
           (phone_number_id user_number_id from user_question : string)
           (w : world) : turn :=
  let message := String.append "Answering: " user_question in
  let w := send message w in
  let result := Cache.checkCache similarity keys user_question (cache w) in
  let found := Cache.found result in
  let response := Cache.response result in
  let stands :=
    chatbot compareSync hashSync readFile fuel salt thread retrieve answer
      set_ok user_number_id phone_number_id user_question from found w in
  match stands with
  | Polling _ => {| stands := stands; cached := None |}
  | _ => {| stands := stands;
            cached := if found then Some response else None |}
  end.

End Turn.

End Webhook.

(** * Properties *)

(** ** JavaScript numbers *)

Module JSNumberFacts.
Import JSNumber.

Lemma SFcompare_antisym (x y : number) (c : comparison) :
  SFcompare x y = Some c -> SFcompare y x = Some (CompOpp c).
Proof.
  destruct x as [sx|sx| |sx mx ex], y as [sy|sy| |sy my ey]; simpl;
    try discriminate;
    try (intros [= <-]; try destruct sx; try destruct sy; reflexivity).
  intros [= <-]. f_equal.
  destruct sx, sy; try reflexivity;
    rewrite (Z.compare_antisym ex ey);
    destruct (ex ?= ey)%Z; simpl; try reflexivity;
    change (Pos.compare_cont Eq my mx) with (my ?= mx)%positive;
    change (Pos.compare_cont Eq mx my) with (mx ?= my)%positive;
    rewrite (Pos.compare_antisym mx my);
    destruct (mx ?= my)%positive; reflexivity.
Qed.

(** A number at or below [b] is not above [b]. *)
Lemma le_not_gt (a b : number) : le a b = true -> gt a b = false.
Proof.
  unfold le, gt, SFleb, SFltb.
  destruct (SFcompare a b) as [c|] eqn:E; [|discriminate].
  rewrite (SFcompare_antisym _ _ _ E).
  destruct c; simpl; congruence.
Qed.

Lemma gt_NaN (b : number) : gt NaN b = false.
Proof. unfold gt, SFltb. destruct b; reflexivity. Qed.

Lemma mul_zero_zero (a b : number) :
  is_zero a = true -> is_zero b = true -> is_zero (mul a b) = true.
Proof. destruct a, b; simpl; try discriminate; reflexivity. Qed.

Lemma add_zero_zero (a b : number) :
  is_zero a = true -> is_zero b = true -> is_zero (add a b) = true.
Proof.
  destruct a as [sa|sa| |sa ma ea], b as [sb|sb| |sb mb eb];
    simpl; try discriminate.
  destruct sa, sb; reflexivity.
Qed.

Lemma sqrt_zero (a : number) : is_zero a = true -> is_zero (sqrt a) = true.
Proof. destruct a; simpl; try discriminate; reflexivity. Qed.

End JSNumberFacts.

(** ** The cosine of a zero vector *)

Module CosineFacts.
Import JSNumber JSNumberFacts CosineSimilarity.

Lemma fold_add_zero (l : list number) (acc : number) :
  is_zero acc = true ->
  Forall (fun p => is_zero p = true) l ->
  is_zero (fold_left add l acc) = true.
Proof.
  intros Hacc Hl. revert acc Hacc.
  induction Hl as [|p l Hp _ IH]; intros acc Hacc; simpl; [exact Hacc|].
  apply IH. now apply add_zero_zero.
Qed.

Lemma products_zero_self (x : list number) :
  zero_vector x -> Forall (fun p => is_zero p = true) (products x x).
Proof.
  induction 1 as [|a x Ha _ IH]; simpl; constructor.
  - now apply mul_zero_zero.
  - exact IH.
Qed.

(** The squared magnitude of a zero vector is a zero. *)
Lemma dotp_self_zero (x : list number) :
  zero_vector x -> is_zero (dotp x x) = true.
Proof.
  intros Hx. apply fold_add_zero; [reflexivity | now apply products_zero_self].
Qed.

(** A vector whose components are all zero has zero magnitude. *)
Lemma zero_vector_magnitude (v : list number) :
  zero_vector v -> is_zero (magnitude v) = true.
Proof. intros Hv. apply sqrt_zero, dotp_self_zero, Hv. Qed.

(** With zero magnitude on either side the package returns 0. *)
Lemma cosineSimilarity_zero_magnitude (A B : list number) :
  is_zero (magnitude A) = true \/ is_zero (magnitude B) = true ->
  cosineSimilarity A B = zero.
Proof.
  intros H. unfold cosineSimilarity.
  destruct H as [-> | ->]; [reflexivity|].
  rewrite orb_true_r. reflexivity.
Qed.

(** Otherwise it returns the quotient. *)
Lemma cosineSimilarity_quotient (A B : list number) :
  is_zero (magnitude A) = false ->
  is_zero (magnitude B) = false ->
  cosineSimilarity A B = div (dotp A B) (mul (magnitude A) (magnitude B)).
Proof. intros HA HB. unfold cosineSimilarity. rewrite HA, HB. reflexivity. Qed.

End CosineFacts.

(** ** similarity.js *)

Module SimilarityFacts.
Import JSNumber JSNumberFacts Similarity.

Section Evaluator.

Variable getEmbedding : string -> list number.
Variable cosineSimilarity : list number -> list number -> number.

Local Abbreviation similarity := (Similarity.similarity getEmbedding cosineSimilarity).
Local Abbreviation score := (Similarity.score getEmbedding cosineSimilarity).

Lemma similarity_unfold (query value : string) :
  similarity query value = if gt (score query value) threshold then "yes" else "no".
Proof. reflexivity. Qed.

Lemma similarity_yes (query value : string) :
  similarity query value = "yes" <-> gt (score query value) threshold = true.
Proof.
  rewrite similarity_unfold.
  destruct (gt (score query value) threshold); split; congruence.
Qed.

Lemma similarity_no (query value : string) :
  similarity query value = "no" <-> gt (score query value) threshold = false.
Proof.
  rewrite similarity_unfold.
  destruct (gt (score query value) threshold); split; congruence.
Qed.

(** C4. The evaluator answers "yes" exactly when the cosine similarity
    of the two texts' embeddings is strictly above the threshold, the
    double written 0.81, and "no" otherwise; a similarity at or below the
    threshold, the threshold itself included, gives "no". *)
Theorem similarity_strictly_above_threshold (query value : string) :
  let cosine := cosineSimilarity (getEmbedding query) (getEmbedding value) in
  let t := S754_finite false 7295831396340204 (-53) in
  (similarity query value = "yes" <-> SFltb t cosine = true)
  /\ (similarity query value = "no" <-> SFltb t cosine = false)
  /\ (SFleb cosine t = true -> similarity query value = "no")
  /\ (cosine = t -> similarity query value = "no")
  /\ (Z.abs (100 * 7295831396340204 - 81 * 2 ^ 53) <= 50)%Z.
Proof.
  simpl.
  split; [apply similarity_yes|].
  split; [apply similarity_no|].
  split; [|split].
  - intros Hle. apply similarity_no. now apply le_not_gt.
  - intros Heq. apply similarity_no. unfold Similarity.score, getSimilarity.
    rewrite Heq. reflexivity.
  - vm_compute. discriminate.
Qed.

End Evaluator.

(** The threshold is the double written 0.81: 0.81 * 2^53 lies within
    half a unit of the mantissa. *)
Lemma threshold_is_0_81 :
  threshold = S754_finite false 7295831396340204 (-53)
  /\ (Z.abs (100 * 7295831396340204 - 81 * 2 ^ 53) <= 50)%Z.
Proof. split; [reflexivity | vm_compute; discriminate]. Qed.

(** Two questions the sample embedding maps to the same direction have
    cosine 1 and are equivalent; a question and a request it maps to
    orthogonal directions have cosine 0 and are not. *)
Lemma similarity_strictly_above_threshold_witness :
  Similarity.similarity Samples.getEmbedding CosineSimilarity.cosineSimilarity
    "What is the capital of France?" "What's France's capital city?" = "yes"
  /\ Similarity.similarity Samples.getEmbedding CosineSimilarity.cosineSimilarity
       "What is the capital of France?" "Tell me a joke" = "no"
  /\ Similarity.similarity Samples.getEmbedding (fun _ _ => threshold)
       "What is the capital of France?" "What's France's capital city?" = "no".
Proof.
  split; [|split].
  - apply (proj1 (similarity_strictly_above_threshold
                    Samples.getEmbedding CosineSimilarity.cosineSimilarity
                    "What is the capital of France?"
                    "What's France's capital city?")).
    vm_compute. reflexivity.
  - apply (proj1 (proj2 (similarity_strictly_above_threshold
                    Samples.getEmbedding CosineSimilarity.cosineSimilarity
                    "What is the capital of France?" "Tell me a joke"))).
    vm_compute. reflexivity.
  - apply (proj1 (proj2 (proj2 (proj2 (similarity_strictly_above_threshold
                    Samples.getEmbedding (fun _ _ => threshold)
                    "What is the capital of France?"
                    "What's France's capital city?"))))).
    reflexivity.
Defined.



End SimilarityFacts.

(** ** database.js: the identity table *)

Module DatabaseFacts.
Import Database.

Section Scan.

Variable compareSync : string -> string -> bool.

Local Abbreviation matches target := (fun u => compareSync target (Schema.id u) = true).

Lemma scan_found_iff (target : string) (users : table) (i : nat) :
  (scan compareSync target users i).2 = true <-> Exists (matches target) users.
Proof.
  revert i. induction users as [|u rest IH]; intros i; simpl.
  - split; [discriminate | intros H; inversion H].
  - destruct (compareSync target (Schema.id u)) eqn:E; simpl.
    + split; [intros _; now left | reflexivity].
    + rewrite IH. split; [now right|].
      intros H. inversion H as [? ? Hu | ? ? Hr]; subst; [congruence | exact Hr].
Qed.

(** Where the loop stops with [found] set: at the first row that matches. *)
Lemma scan_stops_at_first_match (target : string) (users : table) (i j : nat) :
  scan compareSync target users i = (j, true) ->
  exists u, users !! (j - i) = Some u
            /\ i <= j
            /\ matches target u
            /\ Forall (fun v => compareSync target (Schema.id v) = false)
                      (take (j - i) users).
Proof.
  revert i. induction users as [|u rest IH]; intros i; simpl; [discriminate|].
  destruct (compareSync target (Schema.id u)) eqn:E.
  - intros [= <-]. exists u. rewrite Nat.sub_diag. simpl.
    repeat split; [lia | exact E | constructor].
  - intros H. destruct (IH _ H) as (v & Hv & Hle & Hm & Hall).
    exists v. replace (j - i) with (S (j - S i)) by lia. simpl.
    repeat split; [exact Hv | lia | exact Hm | now constructor].
Qed.

Lemma checkDatabase_found_iff (target : string) (db : table) :
  found (checkDatabase compareSync target db) = true
  <-> exists u, u ∈ db /\ compareSync target (Schema.id u) = true.
Proof.
  rewrite <- Exists_exists, <- (scan_found_iff target db 0).
  unfold checkDatabase. destruct (scan compareSync target db 0); reflexivity.
Qed.

Lemma matched_Some (target : string) (db : table) (u : Schema.user) :
  matched compareSync target db = Some u ->
  exists k, db !! k = Some u
            /\ compareSync target (Schema.id u) = true
            /\ Forall (fun v => compareSync target (Schema.id v) = false) (take k db).
Proof.
  unfold matched. destruct (scan compareSync target db 0) as [j [|]] eqn:E; [|discriminate].
  intros Hj. destruct (scan_stops_at_first_match _ _ _ _ E) as (v & Hv & _ & Hm & Hall).
  rewrite Nat.sub_0_r in Hv, Hall.
  exists j. assert (v = u) by congruence. subst v. auto.
Qed.

Lemma matched_found (target : string) (db : table) :
  found (checkDatabase compareSync target db) = true
  <-> is_Some (matched compareSync target db).
Proof.
  unfold checkDatabase, matched.
  destruct (scan compareSync target db 0) as [j [|]] eqn:E; simpl.
  - destruct (scan_stops_at_first_match _ _ _ _ E) as (v & Hv & _).
    rewrite Nat.sub_0_r in Hv. rewrite Hv. split; eauto.
  - split; [discriminate | intros [? ?]; discriminate].
Qed.

Lemma checkDatabase_thread_id (target : string) (db : table) :
  Database.thread_id (checkDatabase compareSync target db) = None.
Proof. unfold checkDatabase. destruct (scan compareSync target db 0); reflexivity. Qed.

(** C1 (what the code returns). [checkDatabase] reports a raw identifier
    as found exactly when some stored record matches it, but the
    [thread_id] it returns is [undefined] in every case: the loop never
    reads the thread handle of the row it stops at. *)
Theorem checkDatabase_thread_id_undefined (target : string) (db : table) :
  (found (checkDatabase compareSync target db) = true
   <-> exists u, u ∈ db /\ compareSync target (Schema.id u) = true)
  /\ Database.thread_id (checkDatabase compareSync target db) = None
  /\ (forall u handle,
        matched compareSync target db = Some u ->
        Schema.thread_id u = Some handle ->
        found (checkDatabase compareSync target db) = true
        /\ Database.thread_id (checkDatabase compareSync target db) <> Some handle).
Proof.
  pose proof (checkDatabase_thread_id target db) as Hnone.
  split; [apply checkDatabase_found_iff|].
  split; [exact Hnone|].
  intros u handle Hu _. split.
  - apply matched_found. rewrite Hu. eauto.
  - rewrite Hnone. discriminate.
Qed.

End Scan.

(** A known sender whose record holds the thread "thread_abc": the lookup
    finds the record and returns no thread handle. *)
Example checkDatabase_known_sender :
  let db := [ {| Schema.id := Samples.hashSync "353861234567" 10 "k";
                 Schema.thread_id := Some "thread_abc" |} ] in
  checkDatabase Samples.compareSync "353861234567" db
  = {| found := true; thread_id := None |}
  /\ matched Samples.compareSync "353861234567" db
     = Some {| Schema.id := "k353861234567"; Schema.thread_id := Some "thread_abc" |}.
Proof. split; vm_compute; reflexivity. Qed.

End DatabaseFacts.

(** ** main.js: resolving a sender *)

Module IdentityFacts.
Import Database Main.

Lemma users_send (message : string) (w : world) : users (send message w) = users w.
Proof. reflexivity. Qed.

Lemma users_onboarding (readFile : string -> option string) (w : world) :
  users (onboarding readFile w) = users w.
Proof.
  unfold onboarding. destruct (readFile "./GDPR.txt"); [|reflexivity].
  destruct (readFile "./how-to-use.txt"); reflexivity.
Qed.

Section RoundTrip.

Variable compareSync : string -> string -> bool.
Variable hashSync : string -> nat -> string -> string.
Variable readFile : string -> option string.

(** What bcrypt promises: a hash compares equal to the data it was made
    from, whatever salt was drawn. *)
Hypothesis compare_hash :
  forall data rounds salt, compareSync data (hashSync data rounds salt) = true.

Local Abbreviation checkDatabase := (Database.checkDatabase compareSync).
Local Abbreviation matched := (Database.matched compareSync).
Local Abbreviation resolve := (Main.resolve compareSync hashSync readFile).
Local Abbreviation record_of := (Main.record_of hashSync).

(** After a miss the fresh hash is not yet a key of the table, so the
    insert goes through. *)
Lemma miss_insert (raw salt thread : string) (db : table) :
  found (checkDatabase raw db) = false ->
  updateDatabase (hashSync raw saltRounds salt) thread db
  = inr (db ++ [record_of (raw, salt, thread)]).
Proof.
  intros Hmiss. unfold updateDatabase.
  destruct (decide (hashSync raw saltRounds salt ∈ Schema.id <$> db)) as [Hin|_];
    [|reflexivity].
  apply list_elem_of_fmap in Hin as (u & Hid & Hu).
  assert (Hfound : found (checkDatabase raw db) = true).
  { apply DatabaseFacts.checkDatabase_found_iff. exists u. split; [exact Hu|].
    rewrite <- Hid. apply compare_hash. }
  congruence.
Qed.

Lemma found_after_insert (raw salt thread : string) (db : table) :
  found (checkDatabase raw (db ++ [record_of (raw, salt, thread)])) = true.
Proof.
  apply DatabaseFacts.checkDatabase_found_iff.
  exists (record_of (raw, salt, thread)). split.
  - apply elem_of_app. right. apply list_elem_of_singleton. reflexivity.
  - simpl. apply compare_hash.
Qed.

Lemma resolve_known (salt thread raw : string) (w : world) :
  found (checkDatabase raw (users w)) = true ->
  resolve salt thread raw w = inr (true, hashSync raw saltRounds salt, w).
Proof. intros H. unfold Main.resolve. rewrite H. reflexivity. Qed.

End RoundTrip.

Lemma sample_compare_hash (data : string) (rounds : nat) (salt : string) :
  Samples.compareSync data (Samples.hashSync data rounds salt) = true.
Proof. destruct salt; simpl; apply String.eqb_refl. Qed.

(** The sample hash compares equal to data with the same key only. *)
Lemma sample_compare_sound (data data' : string) (rounds : nat) (salt : string) :
  Samples.compareSync data (Samples.hashSync data' rounds salt) = true ->
  Bcrypt.key data = Bcrypt.key data'.
Proof. destruct salt; simpl; apply String.eqb_eq. Qed.

End IdentityFacts.

(** ** database.js: the Redis cache *)

Module CacheFacts.
Import Cache.

Section Lookup.

Variable similarity : string -> string -> string.
Variable keys : gmap string string -> list string.

(** [KEYS *] lists the keys that are stored, all of them. *)
Hypothesis keys_stored :
  forall (store : gmap string string) k, k ∈ keys store <-> is_Some (store !! k).

Local Abbreviation scan := (Cache.scan similarity).
Local Abbreviation checkCache := (Cache.checkCache similarity keys).
Local Abbreviation compared := (Cache.compared similarity keys).
Local Abbreviation differs query := (fun k => similarity query k <> "yes").

Lemma scan_miss (query : string) (store : gmap string string) (ks : list string) :
  Forall (differs query) ks ->
  scan query store ks = ({| found := false; response := Some "error" |}, ks).
Proof.
  induction 1 as [|k ks Hk _ IH]; simpl; [reflexivity|].
  apply String.eqb_neq in Hk. rewrite Hk, IH. reflexivity.
Qed.

Lemma scan_first_match (query : string) (store : gmap string string)
      (l1 : list string) (key : string) (l2 : list string) :
  Forall (differs query) l1 ->
  similarity query key = "yes" ->
  scan query store (l1 ++ key :: l2)
  = ({| found := true; response := store !! key |}, l1 ++ [key]).
Proof.
  intros Hl1 Hkey. induction Hl1 as [|k l1 Hk _ IH]; simpl.
  - rewrite Hkey. reflexivity.
  - apply String.eqb_neq in Hk. rewrite Hk, IH. reflexivity.
Qed.

(** C2, as amended. The lookup compares the query with the stored keys in
    the order [KEYS *] lists them; at the first key judged similar it
    stops and returns a hit with the response stored under that key; when
    no key is judged similar it has compared them all and returns a miss
    whose response is the placeholder "error". *)
Theorem checkCache_first_match_wins (query : string) (store : gmap string string) :
  (forall l1 key l2,
      keys store = l1 ++ key :: l2 ->
      Forall (differs query) l1 ->
      similarity query key = "yes" ->
      exists v, store !! key = Some v
                /\ checkCache query store = {| found := true; response := Some v |}
                /\ compared query store = l1 ++ [key])
  /\ (Forall (differs query) (keys store) ->
      checkCache query store = {| found := false; response := Some "error" |}
      /\ compared query store = keys store
      /\ forall k v, store !! k = Some v -> k ∈ compared query store).
Proof.
  split.
  - intros l1 key l2 Hks Hl1 Hkey.
    destruct (proj1 (keys_stored store key)) as [v Hv].
    { rewrite Hks. apply elem_of_app. right. left. }
    exists v. unfold Cache.checkCache, Cache.compared.
    rewrite Hks, (scan_first_match query store l1 key l2 Hl1 Hkey), Hv.
    auto.
  - intros Hall. unfold Cache.checkCache, Cache.compared.
    rewrite (scan_miss query store _ Hall). simpl.
    split; [reflexivity|]. split; [reflexivity|].
    intros k v Hk. apply keys_stored. eauto.
Qed.

End Lookup.

Lemma sample_keys_stored (store : gmap string string) (k : string) :
  k ∈ Samples.keys store <-> is_Some (store !! k).
Proof.
  unfold Samples.keys. split.
  - intros Hk. apply list_elem_of_fmap in Hk as ([k' v] & -> & Hkv).
    apply elem_of_map_to_list in Hkv. simpl. eauto.
  - intros [v Hv]. apply list_elem_of_fmap. exists (k, v).
    split; [reflexivity|]. now apply elem_of_map_to_list.
Qed.

(** A store whose keys are listed as "Order status", "What is the capital
    of Spain?", "What is the capital of France?", "Tell me a joke": the
    sample embedding judges both capital questions similar to the query,
    and the lookup returns the response of the one listed first, having
    compared the first two keys only. *)
Lemma checkCache_first_match_wins_witness :
  let store : gmap string string :=
    <["Tell me a joke" := "Knock knock"]>
      (<["What is the capital of France?" := "Paris"]>
         (<["What is the capital of Spain?" := "Madrid"]>
            (<["Order status" := "Shipped"]> ∅))) in
  Samples.keys store
  = ["Order status"] ++ "What is the capital of Spain?"
      :: ["What is the capital of France?"; "Tell me a joke"]
  /\ Samples.similarity "What's France's capital city?"
       "What is the capital of France?" = "yes"
  /\ exists v, store !! "What is the capital of Spain?" = Some v
               /\ v = "Madrid"
               /\ Cache.checkCache Samples.similarity Samples.keys
                    "What's France's capital city?" store
                  = {| found := true; response := Some v |}
               /\ Cache.compared Samples.similarity Samples.keys
                    "What's France's capital city?" store
                  = ["Order status"] ++ ["What is the capital of Spain?"].
Proof.
  intros store.
  split; [vm_compute; reflexivity|]. split; [vm_compute; reflexivity|].
  destruct (proj1 (checkCache_first_match_wins Samples.similarity Samples.keys
                     sample_keys_stored "What's France's capital city?" store)
              ["Order status"] "What is the capital of Spain?"
              ["What is the capital of France?"; "Tell me a joke"])
    as (v & Hv & Hhit & Hcompared).
  - vm_compute. reflexivity.
  - constructor; [|constructor]. vm_compute. discriminate.
  - vm_compute. reflexivity.
  - exists v. split; [exact Hv|]. split; [|split; assumption].
    assert (Hm : store !! "What is the capital of Spain?" = Some "Madrid")
      by (vm_compute; reflexivity).
    congruence.
Defined.

(** A lookup that finds nothing answers with the text "error", not with
    an empty response. *)
Lemma checkCache_miss_is_not_empty :
  let store : gmap string string :=
    <["What is the capital of France?" := "Paris"]> ∅ in
  let r := Cache.checkCache Samples.similarity Samples.keys "Tell me a joke" store in
  found r = false
  /\ response r = Some "error"
  /\ response r <> None
  /\ response r <> Some "".
Proof. vm_compute. repeat split; discriminate. Qed.

(** C8, as amended. A store call leaves the response of every entry
    whose query text differs from the stored query as it was; the entry
    under the very same query text, if there is one, is replaced by the
    new response (or left as it was when the write fails). *)
Theorem updateCache_frame (set_ok : bool) (query response : string)
        (store : gmap string string) :
  let store' := (updateCache set_ok query response store).1 in
  (forall k, k <> query -> store' !! k = store !! k)
  /\ store' !! query = (if set_ok then Some response else store !! query).
Proof.
  unfold updateCache. destruct set_ok; simpl.
  - split; [|apply lookup_insert_eq].
    intros k Hk. apply lookup_insert_ne. congruence.
  - split; [intros; reflexivity | reflexivity].
Qed.

(** Storing a second answer under a query text already present replaces
    the first answer. *)
Lemma updateCache_overwrites_same_query :
  let store : gmap string string :=
    <["What is the capital of France?" := "Paris"]> ∅ in
  let store' :=
    (updateCache true "What is the capital of France?" "Lyon" store).1 in
  store !! "What is the capital of France?" = Some "Paris"
  /\ store' !! "What is the capital of France?" = Some "Lyon"
  /\ store' !! "What is the capital of France?" <> Some "Paris"
  /\ size store' = 1.
Proof. vm_compute. repeat split; discriminate. Qed.

End CacheFacts.

(** ** main.js: outbound delivery *)

Module DeliveryFacts.
Import Main.

Lemma on_rejected_exits (error : axios_error) :
  exits (on_rejected error) = true <-> is_Some (response error).
Proof.
  unfold on_rejected. destruct (response error); simpl.
  - split; eauto.
  - split; [discriminate | intros [? ?]; discriminate].
Qed.

Lemma on_rejected_logs (error : axios_error) :
  logs (on_rejected error) = exits (on_rejected error).
Proof. unfold on_rejected. destruct (response error); reflexivity. Qed.

Lemma auth_class_has_response (error : axios_error) :
  auth_class error = true -> is_Some (response error).
Proof. unfold auth_class. destruct (response error); [eauto | discriminate]. Qed.

(** C7, as amended. A delivery failure that carries a response of the
    transport, whatever its status, is logged and terminates the process;
    credential-level failures are among these.  A failure without a
    response does not terminate the process, and a delivered message
    neither logs nor terminates. *)
Theorem sendMessage_failure_policy
        (hashSync : string -> nat -> string -> string) (salt : string)
        (user_number_id phone_number_id user_question from message : string)
        (error : axios_error) :
  let failed := sendMessage hashSync salt (Rejected error)
                  user_number_id phone_number_id user_question from message in
  let sent := sendMessage hashSync salt Delivered
                user_number_id phone_number_id user_question from message in
  (exits failed = true <-> is_Some (response error))
  /\ logs failed = exits failed
  /\ (auth_class error = true -> exits failed = true)
  /\ (response error = None -> exits failed = false)
  /\ exits sent = false /\ logs sent = false.
Proof.
  simpl. split; [apply on_rejected_exits|].
  split; [apply on_rejected_logs|].
  split; [intros H; apply on_rejected_exits, auth_class_has_response, H|].
  split; [|split; reflexivity].
  unfold on_rejected. intros ->. reflexivity.
Qed.

(** A 500 from the transport is not a credential failure, yet it
    terminates the process; a failure without a response is swallowed
    without a log line. *)
Lemma server_error_terminates :
  let server_error := {| response := Some {| status := 500 |} |} in
  let no_response := {| response := None |} in
  let failed error :=
    sendMessage Samples.hashSync "k" (Rejected error)
      "353861234567" "1055" "Hi" "353861234567" "Answering: Hi" in
  auth_class server_error = false
  /\ exits (failed server_error) = true
  /\ exits (failed no_response) = false
  /\ logs (failed no_response) = false.
Proof. vm_compute. repeat split. Qed.

End DeliveryFacts.

(** ** main.js: waiting for the completion *)

Module PollingFacts.
Import Main.

Lemma poll_never_completed (retrieve : nat -> string) :
  (forall n, retrieve n <> "completed") ->
  forall fuel n, poll fuel retrieve n = None.
Proof.
  intros Hnever. induction fuel as [|fuel IH]; intros n; simpl;
    pose proof (Hnever n) as Hn; apply String.eqb_neq in Hn; rewrite Hn;
    [reflexivity | apply IH].
Qed.

(** The loop is left as soon as a poll reports "completed", given fuel
    for the polls before it. *)
Lemma poll_completes (retrieve : nat -> string) (d : nat) :
  forall n fuel,
    retrieve (n + d) = "completed" ->
    (forall j, j < d -> retrieve (n + j) <> "completed") ->
    d <= fuel ->
    poll fuel retrieve n = Some (n + d).
Proof.
  induction d as [|d IH]; intros n fuel Hdone Hbefore Hfuel.
  - rewrite Nat.add_0_r in *.
    destruct fuel; simpl; rewrite Hdone; reflexivity.
  - destruct fuel as [|fuel]; [lia|]. simpl.
    pose proof (Hbefore 0 ltac:(lia)) as H0. rewrite Nat.add_0_r in H0.
    apply String.eqb_neq in H0. rewrite H0.
    replace (n + S d) with (S n + d) in * by lia.
    apply IH; [exact Hdone | | lia].
    intros j Hj. replace (S n + j) with (n + S j) by lia. apply Hbefore. lia.
Qed.

Lemma cache_onboarding (readFile : string -> option string) (w : world) :
  cache (onboarding readFile w) = cache w.
Proof.
  unfold onboarding. destruct (readFile "./GDPR.txt"); [|reflexivity].
  destruct (readFile "./how-to-use.txt"); reflexivity.
Qed.

Lemma resolve_leaves_cache_and_outbox
      (compareSync : string -> string -> bool)
      (hashSync : string -> nat -> string -> string)
      (readFile : string -> option string)
      (salt thread user_number_id : string) (w w' : world)
      (found : bool) (hashed : string) :
  resolve compareSync hashSync readFile salt thread user_number_id w
  = inr (found, hashed, w') ->
  cache w' = cache w /\
  outbox w' = outbox (if found then w else onboarding readFile w).
Proof.
  unfold resolve.
  destruct (Database.found _) eqn:Hf.
  - intros [= <- <- <-]. split; reflexivity.
  - destruct (Database.updateDatabase _ _ _); [discriminate|].
    intros [= <- <- <-]. split; [apply cache_onboarding | reflexivity].
Qed.

(** C6, as amended. The polling loop has no bound: when no poll ever
    reports "completed", the loop is not left after any number of polls,
    the turn stays in it without reaching a failure branch, and the
    answer is never handed to [sendMessage] nor written to the cache. *)
Theorem polling_has_no_bound
        (compareSync : string -> string -> bool)
        (hashSync : string -> nat -> string -> string)
        (readFile : string -> option string)
        (retrieve : nat -> string) :
  (forall n, retrieve n <> "completed") ->
  forall fuel salt thread answer set_ok
         user_number_id phone_number_id user_question from w,
    poll fuel retrieve 0 = None
    /\ forall found hashed w',
        resolve compareSync hashSync readFile salt thread user_number_id w
        = inr (found, hashed, w') ->
        chatbot compareSync hashSync readFile fuel salt thread retrieve answer
          set_ok user_number_id phone_number_id user_question from false w
        = Polling w'
        /\ cache w' = cache w
        /\ outbox w' = outbox (if found then w else onboarding readFile w).
Proof.
  intros Hnever fuel salt thread answer set_ok uid pid question from w.
  split; [now apply poll_never_completed|].
  intros found hashed w' Hres. split.
  - unfold chatbot. rewrite Hres. simpl.
    rewrite (poll_never_completed retrieve Hnever). reflexivity.
  - eapply resolve_leaves_cache_and_outbox, Hres.
Qed.

Lemma polling_has_no_bound_witness :
  poll 100 (fun _ => "failed") 0 = None
  /\ forall found hashed w',
      resolve Samples.compareSync Samples.hashSync Samples.readFile
        "k" "thread_1" "353861234567" Samples.fresh
      = inr (found, hashed, w') ->
      chatbot Samples.compareSync Samples.hashSync Samples.readFile
        100 "k" "thread_1" (fun _ => "failed") "42" true
        "353861234567" "1055" "Hi" "353861234567" false Samples.fresh
      = Polling w'
      /\ cache w' = cache Samples.fresh
      /\ outbox w'
         = outbox (if found then Samples.fresh
                   else onboarding Samples.readFile Samples.fresh).
Proof.
  apply (polling_has_no_bound Samples.compareSync Samples.hashSync Samples.readFile
           (fun _ => "failed")).
  intros n. discriminate.
Defined.

(** A run that ended as "failed" is polled for ever: however many polls
    are allowed, the loop is not left and the turn is still waiting, with
    only the onboarding texts handed to [sendMessage]. *)
Lemma failed_run_polls_forever :
  let turn fuel :=
    chatbot Samples.compareSync Samples.hashSync Samples.readFile
      fuel "k" "thread_1" (fun _ => "failed") "42" true
      "353861234567" "1055" "Hi" "353861234567" false Samples.fresh in
  let waiting :=
    Polling {| users := [ {| Schema.id := "k353861234567";
                             Schema.thread_id := Some "thread_1" |} ];
               cache := ∅;
               outbox := ["GDPR notice"; "How to use"];
               console := [] |} in
  ~ (exists fuel, poll fuel (fun _ => "failed") 0 <> None)
  /\ ~ (exists fuel, turn fuel <> waiting).
Proof.
  assert (Hnever : forall n : nat, (fun _ : nat => "failed") n <> "completed")
    by (intros n; discriminate).
  split; intros [fuel Hfuel]; apply Hfuel.
  - now apply poll_never_completed.
  - unfold chatbot.
    rewrite (poll_never_completed _ Hnever). reflexivity.
Qed.

(** With a run that does complete the turn leaves the loop, hands the
    answer to [sendMessage] and stores it. *)
Lemma chatbot_answers_once_completed
      (compareSync : string -> string -> bool)
      (hashSync : string -> nat -> string -> string)
      (readFile : string -> option string)
      (retrieve : nat -> string) (d fuel : nat)
      (salt thread answer user_number_id phone_number_id user_question from : string)
      (w w' : world) (found : bool) (hashed : string) :
  retrieve d = "completed" ->
  (forall j, j < d -> retrieve j <> "completed") ->
  d <= fuel ->
  resolve compareSync hashSync readFile salt thread user_number_id w
  = inr (found, hashed, w') ->
  exists l,
    chatbot compareSync hashSync readFile fuel salt thread retrieve answer
      true user_number_id phone_number_id user_question from false w
    = Logged {| users := users w';
                cache := <[user_question := answer]> (cache w');
                outbox := outbox w' ++ [answer];
                console := console w' ++ [] |} l.
Proof.
  intros Hdone Hbefore Hfuel Hres. unfold chatbot. rewrite Hres. simpl.
  rewrite (poll_completes retrieve d 0 fuel Hdone Hbefore Hfuel).
  eexists. reflexivity.
Qed.

End PollingFacts.

(** ** main.js: the verification handshake *)

Module HandshakeFacts.
Import Main.

Lemma strict_eq_string_spec (v : query_value) (s : string) :
  strict_eq_string v s = true <-> v = QString s.
Proof.
  destruct v as [|s'|]; simpl; try (split; discriminate).
  rewrite String.eqb_eq. split; congruence.
Qed.

(** A supplied token is strictly equal to the configured secret exactly
    when both are the same string. *)
Lemma strict_eq_env_spec (v : query_value) (env : option string) :
  truthy v = true ->
  strict_eq_env v env = true <-> exists t, v = QString t /\ env = Some t.
Proof.
  destruct v as [|s|], env as [s'|]; simpl; intros Hv; try discriminate;
    try (split; [discriminate | intros (t & ? & ?); discriminate]).
  rewrite String.eqb_eq. split.
  - intros ->. eauto.
  - intros (t & [= ->] & [= ->]). reflexivity.
Qed.

(** C9. For a supplied verification token the handshake answers with
    status 200 and the challenge exactly when the token equals the
    configured secret and the mode is "subscribe"; when mode and token are
    supplied and the token is not the secret, it answers with status 403
    whatever the mode. *)
Theorem handshake_accepts_iff
        (VERIFY_TOKEN : option string) (mode token challenge : query_value) :
  truthy token = true ->
  (get_webhook VERIFY_TOKEN mode token challenge
   = Some {| code := 200; body := challenge |}
   <-> (exists t, token = QString t /\ VERIFY_TOKEN = Some t)
       /\ mode = QString "subscribe")
  /\ (truthy mode = true ->
      ~ (exists t, token = QString t /\ VERIFY_TOKEN = Some t) ->
      get_webhook VERIFY_TOKEN mode token challenge
      = Some {| code := 403; body := QString "Forbidden" |}).
Proof.
  intros Htoken.
  pose proof (strict_eq_env_spec token VERIFY_TOKEN Htoken) as Henv.
  pose proof (strict_eq_string_spec mode "subscribe") as Hmode.
  unfold get_webhook, accepted, rejected. rewrite Htoken. split.
  - destruct (truthy mode) eqn:Hm; simpl.
    + destruct (strict_eq_string mode "subscribe") eqn:Hs; simpl.
      * destruct (strict_eq_env token VERIFY_TOKEN) eqn:He.
        -- split; [intros _ | reflexivity].
           split; [now apply Henv | now apply Hmode].
        -- split; [discriminate|].
           intros [Ht _]. apply Henv in Ht. discriminate.
      * split; [discriminate|].
        intros [_ Hsub]. apply Hmode in Hsub. discriminate.
    + split; [discriminate|].
      intros [_ ->]. discriminate.
  - intros -> Hwrong. simpl.
    destruct (strict_eq_env token VERIFY_TOKEN) eqn:He.
    + exfalso. apply Hwrong. now apply Henv.
    + rewrite andb_false_r. reflexivity.
Qed.

(** The right token with mode "subscribe" gets the challenge back with
    200; a wrong token gets 403, with mode "subscribe" as with any other
    mode; the right token with another mode gets no 200. *)
Lemma handshake_accepts_iff_witness :
  get_webhook (Some "s3cret") (QString "subscribe") (QString "s3cret")
    (QString "1158201444")
  = Some {| code := 200; body := QString "1158201444" |}
  /\ get_webhook (Some "s3cret") (QString "subscribe") (QString "guess")
       (QString "1158201444")
     = Some {| code := 403; body := QString "Forbidden" |}
  /\ get_webhook (Some "s3cret") (QString "unsubscribe") (QString "guess")
       (QString "1158201444")
     = Some {| code := 403; body := QString "Forbidden" |}
  /\ get_webhook (Some "s3cret") (QString "unsubscribe") (QString "s3cret")
       (QString "1158201444")
     <> Some {| code := 200; body := QString "1158201444" |}.
Proof.
  assert (Hwrong : ~ (exists t, QString "guess" = QString t /\ Some "s3cret" = Some t)).
  { intros (t & [= <-] & [= ?]). }
  split; [|split; [|split]].
  - apply (proj1 (handshake_accepts_iff (Some "s3cret") (QString "subscribe")
                    (QString "s3cret") (QString "1158201444") eq_refl)).
    split; [exists "s3cret"; split; reflexivity | reflexivity].
  - apply (proj2 (handshake_accepts_iff (Some "s3cret") (QString "subscribe")
                    (QString "guess") (QString "1158201444") eq_refl));
      [reflexivity | exact Hwrong].
  - apply (proj2 (handshake_accepts_iff (Some "s3cret") (QString "unsubscribe")
                    (QString "guess") (QString "1158201444") eq_refl));
      [reflexivity | exact Hwrong].
  - intros H.
    apply (proj1 (handshake_accepts_iff (Some "s3cret") (QString "unsubscribe")
                    (QString "s3cret") (QString "1158201444") eq_refl)) in H.
    destruct H as [_ [= ?]].
Defined.

(** C10. A request whose mode or verification token is absent or empty
    gets no answer at all: neither the challenge nor a rejection. *)
Theorem handshake_silent_without_mode_or_token
        (VERIFY_TOKEN : option string) (mode token challenge : query_value) :
  mode = QUndefined \/ mode = QString "" \/ token = QUndefined \/ token = QString "" ->
  get_webhook VERIFY_TOKEN mode token challenge = None
  /\ get_webhook VERIFY_TOKEN mode token challenge <> accepted challenge
  /\ get_webhook VERIFY_TOKEN mode token challenge <> rejected.
Proof.
  intros H.
  assert (Hnone : get_webhook VERIFY_TOKEN mode token challenge = None).
  { unfold get_webhook.
    destruct H as [-> | [-> | [-> | ->]]]; simpl;
      try reflexivity; rewrite andb_false_r; reflexivity. }
  rewrite Hnone. repeat split; discriminate.
Qed.

Lemma handshake_silent_without_mode_or_token_witness :
  get_webhook (Some "s3cret") (QString "subscribe") QUndefined (QString "1158201444") = None
  /\ get_webhook (Some "s3cret") (QString "subscribe") QUndefined (QString "1158201444")
     <> accepted (QString "1158201444")
  /\ get_webhook (Some "s3cret") (QString "subscribe") QUndefined (QString "1158201444")
     <> rejected.
Proof.
  apply (handshake_silent_without_mode_or_token (Some "s3cret")
           (QString "subscribe") QUndefined (QString "1158201444")).
  right. right. left. reflexivity.
Defined.

(** The handler answers in every other case. *)
Lemma handshake_answers_when_supplied
      (VERIFY_TOKEN : option string) (mode token challenge : query_value) :
  truthy mode = true -> truthy token = true ->
  get_webhook VERIFY_TOKEN mode token challenge = accepted challenge
  \/ get_webhook VERIFY_TOKEN mode token challenge = rejected.
Proof.
  intros Hm Ht. unfold get_webhook. rewrite Hm, Ht. simpl.
  destruct (strict_eq_string mode "subscribe" && strict_eq_env token VERIFY_TOKEN);
    [left | right]; reflexivity.
Qed.

End HandshakeFacts.

(** * Further properties of the code *)

(** ** database.js: the identity table across inserts *)

Module TableFacts.
Import Database.

(** The rows' keys are pairwise distinct. *)
Local Abbreviation keyed db := (NoDup (Schema.id <$> db)).

Lemma updateDatabase_inr (user_id user_thread_id : string) (db db' : table) :
  updateDatabase user_id user_thread_id db = inr db' ->
  (user_id ∉ Schema.id <$> db)
  /\ db' = db ++ [ {| Schema.id := user_id;
                      Schema.thread_id := Some user_thread_id |} ].
Proof.
  unfold updateDatabase.
  destruct (decide (user_id ∈ Schema.id <$> db)); [discriminate|].
  intros [= <-]. auto.
Qed.

(** The insert is refused exactly when the id is already stored; when it
    goes through it adds one row at the end, leaves the rows before it as
    they were and keeps the ids pairwise distinct. *)
Theorem updateDatabase_keeps_primary_key
        (user_id user_thread_id : string) (db : table) :
  keyed db ->
  match updateDatabase user_id user_thread_id db with
  | inl e => e = UniqueViolation user_id /\ user_id ∈ Schema.id <$> db
  | inr db' =>
      (user_id ∉ Schema.id <$> db)
      /\ db' = db ++ [ {| Schema.id := user_id;
                          Schema.thread_id := Some user_thread_id |} ]
      /\ keyed db'
      /\ length db' = S (length db)
      /\ forall i u, db !! i = Some u -> db' !! i = Some u
  end.
Proof.
  intros Hkeyed. unfold updateDatabase.
  destruct (decide (user_id ∈ Schema.id <$> db)) as [Hin|Hout]; [auto|].
  split; [exact Hout|]. split; [reflexivity|]. split; [|split].
  - rewrite fmap_app. apply NoDup_app. split; [exact Hkeyed|]. split.
    + intros x Hx Hx'. simpl in Hx'. apply list_elem_of_singleton in Hx'.
      subst x. contradiction.
    + simpl. apply NoDup_singleton.
  - rewrite length_app. simpl. lia.
  - intros i u Hi. now apply lookup_app_l_Some.
Qed.

(** A table that holds one row: an insert under the stored id is
    refused, an insert under a new id adds a second row behind the first. *)
Lemma updateDatabase_keeps_primary_key_witness :
  let stored := {| Schema.id := "a353860000001"; Schema.thread_id := Some "thread_0" |} in
  let added := {| Schema.id := "k353861234567"; Schema.thread_id := Some "thread_1" |} in
  updateDatabase "a353860000001" "thread_9" [stored]
  = inl (UniqueViolation "a353860000001")
  /\ updateDatabase "k353861234567" "thread_1" [stored] = inr [stored; added]
  /\ NoDup (Schema.id <$> [stored; added])
  /\ [stored; added] !! 0 = Some stored.
Proof.
  intros stored added.
  assert (Hkeyed : NoDup (Schema.id <$> [stored])).
  { simpl. apply NoDup_singleton. }
  pose proof (updateDatabase_keeps_primary_key "a353860000001" "thread_9"
                [stored] Hkeyed) as Hrefused.
  pose proof (updateDatabase_keeps_primary_key "k353861234567" "thread_1"
                [stored] Hkeyed) as Hadded.
  destruct (updateDatabase "a353860000001" "thread_9" [stored]) as [e|db'] eqn:E1.
  - destruct Hrefused as [-> _].
    destruct (updateDatabase "k353861234567" "thread_1" [stored]) as [e|db''] eqn:E2.
    + vm_compute in E2. discriminate.
    + destruct Hadded as (_ & -> & Hnodup & _ & Hrows).
      split; [reflexivity|]. split; [reflexivity|]. split; [exact Hnodup|].
      apply Hrows. reflexivity.
  - vm_compute in E1. discriminate.
Defined.

Section Scan.

Variable compareSync : string -> string -> bool.

Local Abbreviation matches target := (fun u => compareSync target (Schema.id u) = true).

(** Rows after the first match play no part in the scan. *)
Lemma scan_app_found (target : string) (users more : table) (i : nat) :
  Exists (matches target) users ->
  scan compareSync target (users ++ more) i = scan compareSync target users i.
Proof.
  revert i. induction users as [|u rest IH]; intros i H; [inversion H|].
  simpl. destruct (compareSync target (Schema.id u)) eqn:E; [reflexivity|].
  apply IH. inversion H as [? ? Hu | ? ? Hr]; subst; [congruence | exact Hr].
Qed.

Lemma scan_app_miss (target : string) (users more : table) (i : nat) :
  (scan compareSync target users i).2 = false ->
  (scan compareSync target (users ++ more) i).2
  = (scan compareSync target more (i + length users)).2.
Proof.
  revert i. induction users as [|u rest IH]; intros i; simpl.
  - intros _. now rewrite Nat.add_0_r.
  - destruct (compareSync target (Schema.id u)) eqn:E; [discriminate|].
    intros H. rewrite (IH _ H). f_equal. f_equal. lia.
Qed.

Lemma found_scan (target : string) (db : table) :
  found (checkDatabase compareSync target db) = (scan compareSync target db 0).2.
Proof. unfold checkDatabase. destruct (scan compareSync target db 0); reflexivity. Qed.

(** A sender who is known stays known when a row is inserted, and the
    row the lookup stops at stays the same; a sender who is unknown
    becomes known exactly when the new row's id compares equal. *)
Theorem lookup_after_insert (target user_id user_thread_id : string) (db db' : table) :
  updateDatabase user_id user_thread_id db = inr db' ->
  (found (checkDatabase compareSync target db) = true ->
   found (checkDatabase compareSync target db') = true
   /\ matched compareSync target db' = matched compareSync target db)
  /\ (found (checkDatabase compareSync target db) = false ->
      found (checkDatabase compareSync target db') = compareSync target user_id).
Proof.
  intros Hins. apply updateDatabase_inr in Hins as [_ ->]. split.
  - intros Hfound.
    assert (Hex : Exists (matches target) db).
    { apply (DatabaseFacts.scan_found_iff compareSync target db 0).
      now rewrite <- found_scan. }
    unfold checkDatabase, matched.
    rewrite (scan_app_found target db _ 0 Hex).
    rewrite found_scan in Hfound.
    destruct (scan compareSync target db 0) as [j f] eqn:E. simpl in Hfound.
    subst f. split; [reflexivity|].
    destruct (DatabaseFacts.scan_stops_at_first_match _ _ _ _ _ E)
      as (u & Hu & _). rewrite Nat.sub_0_r in Hu.
    rewrite Hu. now apply lookup_app_l_Some.
  - intros Hmiss. rewrite found_scan in *.
    rewrite (scan_app_miss target db _ 0 Hmiss). simpl.
    destruct (compareSync target user_id); reflexivity.
Qed.

Lemma scan_skip (target : string) (before rest : table) (i : nat) :
  Forall (fun v => compareSync target (Schema.id v) = false) before ->
  scan compareSync target (before ++ rest) i
  = scan compareSync target rest (i + length before).
Proof.
  intros H. revert i. induction H as [|v before Hv _ IH]; intros i; simpl.
  - now rewrite Nat.add_0_r.
  - rewrite Hv, IH. f_equal. lia.
Qed.

(** The lookup stops at the first stored row that compares equal to the
    target: the row it stops at is characterised by its position, every
    row before it having failed the comparison. *)
Theorem lookup_stops_at_first_match (target : string) (db : table) (u : Schema.user) :
  matched compareSync target db = Some u
  <-> exists k, db !! k = Some u
                /\ compareSync target (Schema.id u) = true
                /\ Forall (fun v => compareSync target (Schema.id v) = false)
                          (take k db).
Proof.
  split; [apply DatabaseFacts.matched_Some|].
  intros (k & Hk & Hu & Hbefore).
  pose proof (take_drop_middle db k u Hk) as Hsplit.
  pose proof (lookup_lt_Some _ _ _ Hk) as Hlt.
  unfold matched. rewrite <- Hsplit at 1.
  rewrite (scan_skip target _ _ 0 Hbefore). simpl. rewrite Hu.
  rewrite length_take. replace (k `min` length db) with k by lia.
  exact Hk.
Qed.

End Scan.

(** A table that holds the record of one sender, to which the record of
    a second sender is added: the first sender is found before and after,
    at the same row; the second is found only after. *)
Lemma lookup_after_insert_witness :
  let stored := {| Schema.id := "a353860000001"; Schema.thread_id := Some "thread_0" |} in
  let added := {| Schema.id := "k353861234567"; Schema.thread_id := Some "thread_1" |} in
  let found target db := found (checkDatabase Samples.compareSync target db) in
  let matched := matched Samples.compareSync in
  (found "353860000001" [stored] = true
   /\ found "353860000001" [stored; added] = true
   /\ matched "353860000001" [stored; added] = matched "353860000001" [stored]
   /\ matched "353860000001" [stored] = Some stored)
  /\ (found "353861234567" [stored] = false
      /\ found "353861234567" [stored; added]
         = Samples.compareSync "353861234567" "k353861234567"
      /\ Samples.compareSync "353861234567" "k353861234567" = true)
  /\ (found "353869999999" [stored] = false
      /\ found "353869999999" [stored; added]
         = Samples.compareSync "353869999999" "k353861234567"
      /\ Samples.compareSync "353869999999" "k353861234567" = false).
Proof.
  intros stored added found matched.
  assert (Hins : updateDatabase "k353861234567" "thread_1" [stored]
                 = inr [stored; added]) by reflexivity.
  split; [|split].
  - destruct (lookup_after_insert Samples.compareSync "353860000001"
                "k353861234567" "thread_1" [stored] [stored; added] Hins)
      as [Hknown _].
    destruct (Hknown eq_refl) as [Hfound Hsame].
    split; [reflexivity|]. split; [exact Hfound|]. split; [exact Hsame|].
    reflexivity.
  - destruct (lookup_after_insert Samples.compareSync "353861234567"
                "k353861234567" "thread_1" [stored] [stored; added] Hins)
      as [_ Hunknown].
    split; [reflexivity|]. split; [exact (Hunknown eq_refl) | reflexivity].
  - destruct (lookup_after_insert Samples.compareSync "353869999999"
                "k353861234567" "thread_1" [stored] [stored; added] Hins)
      as [_ Hunknown].
    split; [reflexivity|]. split; [exact (Hunknown eq_refl) | reflexivity].
Defined.

End TableFacts.

(** ** main.js and database.js: the identity round trip *)

Module RoundTripFacts.
Import Database Main.

Section RoundTrip.

Variable compareSync : string -> string -> bool.
Variable hashSync : string -> nat -> string -> string.
Variable readFile : string -> option string.

(** What bcrypt promises: a hash compares equal to the data it was made
    from, whatever salt was drawn, and only to data with the same key,
    that is, the same first 72 bytes. *)
Hypothesis compare_hash :
  forall data rounds salt, compareSync data (hashSync data rounds salt) = true.
Hypothesis compare_key :
  forall data data' rounds salt,
    compareSync data (hashSync data' rounds salt) = true ->
    Bcrypt.key data = Bcrypt.key data'.

Local Abbreviation checkDatabase := (Database.checkDatabase compareSync).
Local Abbreviation matched := (Database.matched compareSync).
Local Abbreviation resolve := (Main.resolve compareSync hashSync readFile).
Local Abbreviation record_of := (Main.record_of hashSync).
Local Abbreviation fails target := (fun v => compareSync target (Schema.id v) = false).

Lemma miss_all_fail (target : string) (db : table) :
  found (checkDatabase target db) = false -> Forall (fails target) db.
Proof.
  intros Hmiss. apply Forall_forall. intros v Hv.
  destruct (compareSync target (Schema.id v)) eqn:E; [|reflexivity].
  assert (found (checkDatabase target db) = true).
  { apply DatabaseFacts.checkDatabase_found_iff. eauto. }
  congruence.
Qed.

(** A lookup that misses stops at a row appended after it when that row
    compares equal. *)
Lemma matched_appended (target : string) (db : table) (row : Schema.user) :
  found (checkDatabase target db) = false ->
  compareSync target (Schema.id row) = true ->
  matched target (db ++ [row]) = Some row.
Proof.
  intros Hmiss Hrow. unfold Database.matched.
  rewrite (TableFacts.scan_skip compareSync target db [row] 0 (miss_all_fail _ _ Hmiss)).
  simpl. rewrite Hrow. apply list_lookup_middle. reflexivity.
Qed.

(** A row that fails the comparison changes nothing for the target. *)
Lemma lookup_ignores_failing_row (target : string) (db : table) (row : Schema.user) :
  compareSync target (Schema.id row) = false ->
  found (checkDatabase target (db ++ [row])) = found (checkDatabase target db)
  /\ matched target (db ++ [row]) = matched target db.
Proof.
  intros Hrow. destruct (found (checkDatabase target db)) eqn:Hf.
  - assert (Hex : Exists (fun u => compareSync target (Schema.id u) = true) db).
    { apply (DatabaseFacts.scan_found_iff compareSync target db 0).
      now rewrite <- TableFacts.found_scan. }
    unfold Database.checkDatabase, Database.matched.
    rewrite (TableFacts.scan_app_found compareSync target db [row] 0 Hex).
    rewrite TableFacts.found_scan in Hf.
    destruct (scan compareSync target db 0) as [j f] eqn:E. simpl in Hf. subst f.
    split; [reflexivity|].
    destruct (DatabaseFacts.scan_stops_at_first_match _ _ _ _ _ E) as (u & Hu & _).
    rewrite Nat.sub_0_r in Hu. rewrite Hu. now apply lookup_app_l_Some.
  - assert (Hf' : found (checkDatabase target (db ++ [row])) = false).
    { rewrite TableFacts.found_scan in *.
      rewrite (TableFacts.scan_app_miss compareSync target db [row] 0 Hf).
      simpl. rewrite Hrow. reflexivity. }
    split; [exact Hf'|].
    rewrite TableFacts.found_scan in Hf, Hf'. unfold Database.matched.
    destruct (scan compareSync target db 0) as [j f].
    destruct (scan compareSync target (db ++ [row]) 0) as [j' f'].
    simpl in Hf, Hf'. subst f f'. reflexivity.
Qed.


End RoundTrip.



End RoundTripFacts.

(** ** main.js: the turn *)

Module TurnFacts.
Import Database Main.

(** What a poll that leaves the loop returns: the first call, among those
    the fuel reaches, that reports "completed". *)
Theorem poll_returns_first_completed (fuel : nat) (retrieve : nat -> string) (n k : nat) :
  poll fuel retrieve n = Some k
  <-> n <= k <= n + fuel
      /\ retrieve k = "completed"
      /\ forall j, n <= j < k -> retrieve j <> "completed".
Proof.
  split.
  - revert n. induction fuel as [|fuel IH]; intros n; simpl;
      destruct (String.eqb (retrieve n) "completed") eqn:E.
    + intros [= <-]. apply String.eqb_eq in E.
      split; [lia|]. split; [exact E | intros j Hj; lia].
    + discriminate.
    + intros [= <-]. apply String.eqb_eq in E.
      split; [lia|]. split; [exact E | intros j Hj; lia].
    + intros H. apply IH in H as (Hk & Hdone & Hbefore).
      apply String.eqb_neq in E.
      split; [lia|]. split; [exact Hdone|].
      intros j Hj. destruct (decide (j = n)) as [->|Hne]; [exact E|].
      apply Hbefore. lia.
  - intros (Hk & Hdone & Hbefore).
    replace k with (n + (k - n)) by lia.
    apply PollingFacts.poll_completes.
    + replace (n + (k - n)) with k by lia. exact Hdone.
    + intros j Hj. apply Hbefore. lia.
    + lia.
Qed.

Section Turn.

Variable compareSync : string -> string -> bool.
Variable hashSync : string -> nat -> string -> string.
Variable readFile : string -> option string.

(** What bcrypt promises: a hash compares equal to the data it was made
    from, whatever salt was drawn. *)
Hypothesis compare_hash :
  forall data rounds salt, compareSync data (hashSync data rounds salt) = true.

Local Abbreviation known raw w :=
  (found (checkDatabase compareSync raw (users w))).
Local Abbreviation record_of := (Main.record_of hashSync).
Local Abbreviation resolve := (Main.resolve compareSync hashSync readFile).
Local Abbreviation chatbot := (Main.chatbot compareSync hashSync readFile).

(** The world a turn goes on with once the sender is resolved: as it was
    for a known sender; with the onboarding texts sent and the sender's
    row appended for a first-time one. *)
Local Abbreviation resolved salt thread raw w :=
  (if known raw w then w
   else {| users := users w ++ [record_of (raw%string, salt, thread)];
           cache := cache w;
           outbox := outbox (onboarding readFile w);
           console := console w |}).

Lemma console_onboarding (w : world) : console (onboarding readFile w) = console w.
Proof.
  unfold onboarding. destruct (readFile "./GDPR.txt"); [|reflexivity].
  destruct (readFile "./how-to-use.txt"); reflexivity.
Qed.

Lemma resolve_total (salt thread raw : string) (w : world) :
  resolve salt thread raw w
  = inr (known raw w, hashSync raw saltRounds salt, resolved salt thread raw w).
Proof.
  unfold Main.resolve. destruct (known raw w) eqn:Hk; [reflexivity|].
  rewrite IdentityFacts.users_onboarding.
  rewrite (IdentityFacts.miss_insert compareSync hashSync compare_hash
             raw salt thread (users w) Hk).
  rewrite PollingFacts.cache_onboarding, console_onboarding. reflexivity.
Qed.

(** After a lookup that misses, the insert that records the sender under
    a fresh hash is never refused by the primary key, whatever salt the
    hash draws, and the stored ids stay pairwise distinct. *)
Theorem insert_after_miss_is_never_refused
        (salt thread raw : string) (db : table) :
  NoDup (Schema.id <$> db) ->
  found (checkDatabase compareSync raw db) = false ->
  updateDatabase (hashSync raw saltRounds salt) thread db
  = inr (db ++ [record_of (raw, salt, thread)])
  /\ NoDup (Schema.id <$> db ++ [record_of (raw, salt, thread)]).
Proof.
  intros Hkeyed Hmiss.
  pose proof (IdentityFacts.miss_insert compareSync hashSync compare_hash
                raw salt thread db Hmiss) as Hins.
  split; [exact Hins|].
  apply TableFacts.updateDatabase_inr in Hins as [Hout _].
  rewrite fmap_app. apply NoDup_app. split; [exact Hkeyed|]. split.
  - intros x Hx Hx'. simpl in Hx'. apply list_elem_of_singleton in Hx'.
    subst x. contradiction.
  - simpl. apply NoDup_singleton.
Qed.



End Turn.

(** A table that holds another sender's record. *)
Lemma insert_after_miss_is_never_refused_witness :
  let stored := {| Schema.id := "a353860000001"; Schema.thread_id := Some "thread_0" |} in
  updateDatabase (Samples.hashSync "353861234567" saltRounds "k") "thread_1" [stored]
  = inr ([stored] ++ [Main.record_of Samples.hashSync ("353861234567", "k", "thread_1")])
  /\ NoDup (Schema.id <$> [stored]
                          ++ [Main.record_of Samples.hashSync
                                ("353861234567", "k", "thread_1")]).
Proof.
  intros stored.
  apply (insert_after_miss_is_never_refused Samples.compareSync Samples.hashSync
           IdentityFacts.sample_compare_hash "k" "thread_1" "353861234567" [stored]).
  - simpl. apply NoDup_singleton.
  - reflexivity.
Defined.



End TurnFacts.

(** ** database.js: looking up and storing in the cache *)

Module LookupFacts.
Import Cache.

Section Lookup.

Variable similarity : string -> string -> string.
Variable keys : gmap string string -> list string.

Local Abbreviation scan := (Cache.scan similarity).
Local Abbreviation checkCache := (Cache.checkCache similarity keys).
Local Abbreviation compared := (Cache.compared similarity keys).
Local Abbreviation similar query := (fun k => similarity query k = "yes").
Local Abbreviation differs query := (fun k => similarity query k <> "yes").

(** The shape of every scan: the keys split at the first similar one. *)
Lemma scan_cases (query : string) (store : gmap string string) (ks : list string) :
  (Forall (differs query) ks
   /\ scan query store ks = ({| found := false; response := Some "error" |}, ks))
  \/ (exists l1 key l2,
        ks = l1 ++ key :: l2
        /\ Forall (differs query) l1
        /\ similar query key
        /\ scan query store ks
           = ({| found := true; response := store !! key |}, l1 ++ [key])).
Proof.
  induction ks as [|k ks IH]; simpl.
  - left. split; [constructor | reflexivity].
  - destruct (String.eqb (similarity query k) "yes") eqn:E.
    + right. exists [], k, ks. apply String.eqb_eq in E.
      repeat split; [constructor | exact E].
    + apply String.eqb_neq in E.
      destruct IH as [[Hall ->] | (l1 & key & l2 & -> & Hl1 & Hkey & ->)].
      * left. split; [now constructor | reflexivity].
      * right. exists (k :: l1), key, l2.
        repeat split; [now constructor | exact Hkey].
Qed.

(** The comparisons a lookup makes are a prefix of the stored keys, so
    there are at most as many as entries; only the last key compared can
    be similar to the query, and it is exactly when the lookup hits. *)
Theorem lookup_compares_a_prefix (query : string) (store : gmap string string) :
  compared query store `prefix_of` keys store
  /\ length (compared query store) <= length (keys store)
  /\ (found (checkCache query store) = false ->
      compared query store = keys store
      /\ Forall (differs query) (compared query store))
  /\ (found (checkCache query store) = true ->
      exists before key,
        compared query store = before ++ [key]
        /\ Forall (differs query) before
        /\ similar query key).
Proof.
  unfold Cache.checkCache, Cache.compared.
  destruct (scan_cases query store (keys store))
    as [[Hall ->] | (l1 & key & l2 & Hks & Hl1 & Hkey & ->)]; simpl.
  - split; [reflexivity|]. split; [lia|]. split; [auto | discriminate].
  - rewrite Hks. split; [|split; [|split]].
    + exists l2. now rewrite <- app_assoc.
    + rewrite !length_app. simpl. lia.
    + discriminate.
    + intros _. exists l1, key. auto.
Qed.

(** [KEYS *] lists the keys that are stored, all of them. *)
Hypothesis keys_stored :
  forall (store : gmap string string) k, k ∈ keys store <-> is_Some (store !! k).

(** A lookup hits exactly when some stored query text is similar to the
    query, and what it returns on a hit is the response stored under a
    query text similar to the query; on a miss it returns "error". *)
Theorem lookup_hits_iff_similar_entry (query : string) (store : gmap string string) :
  (found (checkCache query store) = true
   <-> exists k v, store !! k = Some v /\ similar query k)
  /\ (found (checkCache query store) = true ->
      exists k v, store !! k = Some v /\ similar query k
                  /\ response (checkCache query store) = Some v)
  /\ (found (checkCache query store) = false ->
      response (checkCache query store) = Some "error").
Proof.
  unfold Cache.checkCache.
  destruct (scan_cases query store (keys store))
    as [[Hall ->] | (l1 & key & l2 & Hks & Hl1 & Hkey & ->)]; simpl.
  - split; [|split; [discriminate | reflexivity]].
    split; [discriminate|]. intros (k & v & Hk & Hsim).
    assert (Hin : k ∈ keys store) by (apply keys_stored; eauto).
    rewrite Forall_forall in Hall. now apply Hall in Hin.
  - destruct (proj1 (keys_stored store key)) as [v Hv].
    { rewrite Hks. apply elem_of_app. right. left. }
    split; [|split; [|discriminate]].
    + split; [intros _; eauto | reflexivity].
    + intros _. exists key, v. rewrite Hv. auto.
Qed.

Lemma lookup_after_store (query response query' : string)
      (store : gmap string string) :
  similar query' query ->
  found (checkCache query' (<[query := response]> store)) = true
  /\ ((forall k, is_Some (store !! k) -> k <> query -> differs query' k) ->
      Cache.response (checkCache query' (<[query := response]> store))
      = Some response).
Proof.
  intros Hsim. unfold Cache.checkCache.
  destruct (scan_cases query' (<[query := response]> store)
              (keys (<[query := response]> store)))
    as [[Hall ->] | (l1 & key & l2 & Hks & Hl1 & Hkey & ->)]; simpl.
  - exfalso.
    assert (Hin : query ∈ keys (<[query := response]> store)).
    { apply keys_stored. rewrite lookup_insert_eq. eauto. }
    rewrite Forall_forall in Hall. now apply Hall in Hin.
  - split; [reflexivity|]. intros Hothers.
    destruct (decide (key = query)) as [->|Hne].
    + apply lookup_insert_eq.
    + exfalso. apply (Hothers key); [|exact Hne | exact Hkey].
      assert (Hin : key ∈ keys (<[query := response]> store)).
      { rewrite Hks. apply elem_of_app. right. left. }
      apply keys_stored in Hin. rewrite lookup_insert_ne in Hin by congruence.
      exact Hin.
Qed.

(** Storing an answer and then looking up a query similar to the stored
    one is a hit; the response is the one just stored when no other
    stored query text is similar to the query. *)
Theorem store_then_lookup (query response query' : string)
        (store : gmap string string) :
  similar query' query ->
  let store' := (updateCache true query response store).1 in
  found (checkCache query' store') = true
  /\ ((forall k, is_Some (store !! k) -> k <> query -> differs query' k) ->
      Cache.response (checkCache query' store') = Some response).
Proof. intros Hsim. simpl. now apply lookup_after_store. Qed.

End Lookup.

Lemma lookup_hits_iff_similar_entry_witness :
  let store : gmap string string :=
    <["What is the capital of France?" := "Paris"]> ∅ in
  let r := Cache.checkCache Samples.similarity Samples.keys
             "What's France's capital city?" store in
  (found r = true
   <-> exists k v, store !! k = Some v
                   /\ Samples.similarity "What's France's capital city?" k = "yes")
  /\ (found r = true ->
      exists k v, store !! k = Some v
                  /\ Samples.similarity "What's France's capital city?" k = "yes"
                  /\ response r = Some v)
  /\ (found r = false -> response r = Some "error").
Proof.
  apply (lookup_hits_iff_similar_entry Samples.similarity Samples.keys
           CacheFacts.sample_keys_stored "What's France's capital city?"
           (<["What is the capital of France?" := "Paris"]> ∅)).
Defined.

Lemma store_then_lookup_witness :
  let store' :=
    (updateCache true "What is the capital of France?" "Paris" ∅).1 in
  found (Cache.checkCache Samples.similarity Samples.keys
           "What's France's capital city?" store') = true
  /\ ((forall k, is_Some ((∅ : gmap string string) !! k) ->
                 k <> "What is the capital of France?" ->
                 Samples.similarity "What's France's capital city?" k <> "yes") ->
      Cache.response (Cache.checkCache Samples.similarity Samples.keys
                        "What's France's capital city?" store') = Some "Paris").
Proof.
  apply (store_then_lookup Samples.similarity Samples.keys
           CacheFacts.sample_keys_stored
           "What is the capital of France?" "Paris"
           "What's France's capital city?" ∅).
  vm_compute. reflexivity.
Defined.

End LookupFacts.

(** ** similarity.js: scores at the edges *)

Module ScoreFacts.
Import JSNumber Similarity.

(** Whatever the package and the embeddings: a NaN score is never
    classified as equivalent, nor is a zero or negative-infinite one; a
    positive-infinite score is. *)
Theorem similarity_of_special_scores
        (getEmbedding : string -> list number)
        (cosineSimilarity : list number -> list number -> number)
        (query value : string) :
  let s := score getEmbedding cosineSimilarity query value in
  let answer := similarity getEmbedding cosineSimilarity query value in
  (is_nan s = true -> answer = "no")
  /\ (is_zero s = true -> answer = "no")
  /\ (s = S754_infinity true -> answer = "no")
  /\ (s = S754_infinity false -> answer = "yes").
Proof.
  simpl. rewrite SimilarityFacts.similarity_unfold.
  destruct (score getEmbedding cosineSimilarity query value) as [sg|sg| |sg m e];
    simpl; repeat split; try discriminate; try reflexivity; intros [= ->]; reflexivity.
Qed.

End ScoreFacts.

(** ** main.js: what the handshake accepts *)

Module SecretFacts.
Import Main.

(** The handshake hands the challenge back only to a request that quotes
    a configured, non-empty secret with mode "subscribe": with the secret
    unset or empty, no request is accepted. *)
Theorem handshake_accepts_only_the_secret
        (VERIFY_TOKEN : option string) (mode token challenge : query_value) :
  (get_webhook VERIFY_TOKEN mode token challenge = accepted challenge ->
   exists t, t <> "" /\ VERIFY_TOKEN = Some t
             /\ token = QString t /\ mode = QString "subscribe")
  /\ (VERIFY_TOKEN = None \/ VERIFY_TOKEN = Some "" ->
      get_webhook VERIFY_TOKEN mode token challenge <> accepted challenge).
Proof.
  assert (Hsound :
    get_webhook VERIFY_TOKEN mode token challenge = accepted challenge ->
    exists t, t <> "" /\ VERIFY_TOKEN = Some t
              /\ token = QString t /\ mode = QString "subscribe").
  { unfold get_webhook.
    destruct (truthy mode) eqn:Hm; simpl; [|discriminate].
    destruct (truthy token) eqn:Ht; simpl; [|discriminate].
    destruct (strict_eq_string mode "subscribe") eqn:Hs; simpl; [|discriminate].
    destruct (strict_eq_env token VERIFY_TOKEN) eqn:He; [|discriminate].
    intros _.
    apply HandshakeFacts.strict_eq_string_spec in Hs.
    apply (HandshakeFacts.strict_eq_env_spec _ _ Ht) in He as (t & -> & ->).
    exists t. repeat split; [|exact Hs].
    intros ->. discriminate. }
  split; [exact Hsound|].
  intros Hunset Hacc. destruct (Hsound Hacc) as (t & Hne & Ht & _).
  destruct Hunset as [-> | ->]; congruence.
Qed.

End SecretFacts.

(** ** main.js: the message webhook *)

Module WebhookFacts.
Import Json Webhook.

Lemma bind_inr {A B : Type} (m : exn + A) (k : A -> exn + B) (b : B) :
  Json.bind m k = inr b -> exists a, m = inr a /\ k a = inr b.
Proof. destruct m as [e|a]; simpl; [discriminate | eauto]. Qed.

(** The handler answers 200 or 404 and nothing else; 404 exactly when
    the body's [object] is falsy, and then [main] is not called; [main] is
    called exactly when the answer is 200 and the body carries a first
    message, and it works on what [extract] reads. *)
Theorem post_webhook_replies (body : value) (r : reply) :
  post_webhook body = inr r ->
  (status r = 200%Z \/ status r = 404%Z)
  /\ (status r = 404%Z <-> exists o, get body "object" = inr o /\ truthy o = false)
  /\ (status r = 404%Z -> job r = None)
  /\ (is_Some (job r) <-> status r = 200%Z /\ has_message body = inr true)
  /\ (forall j, job r = Some j -> j = extract body).
Proof.
  unfold post_webhook. intros H.
  apply bind_inr in H as (o & Ho & H). rewrite Ho.
  destruct (truthy o) eqn:Hto.
  - apply bind_inr in H as (launch & Hl & H). rewrite Hl.
    destruct launch; injection H as <-; simpl.
    + split; [now left|]. split.
      { split; [discriminate|]. intros (o' & [= <-] & Hf). congruence. }
      split; [discriminate|]. split; [split; eauto|].
      intros j [= <-]. reflexivity.
    + split; [now left|]. split.
      { split; [discriminate|]. intros (o' & [= <-] & Hf). congruence. }
      split; [discriminate|]. split.
      { split; [intros [? ?]; discriminate | intros [_ ?]; discriminate]. }
      intros j. discriminate.
  - injection H as <-. simpl.
    split; [now right|]. split; [split; eauto|]. split; [reflexivity|].
    split; [|intros j; discriminate].
    split; [intros [? ?]; discriminate | intros [? _]; discriminate].
Qed.

Lemma post_webhook_replies_witness :
  let body := notification "1055" "353861234567" (text_message "353861234567" "Hi") in
  let r := {| status := 200; job := Some (extract body) |} in
  (status r = 200%Z \/ status r = 404%Z)
  /\ (status r = 404%Z <-> exists o, get body "object" = inr o /\ truthy o = false)
  /\ (status r = 404%Z -> job r = None)
  /\ (is_Some (job r) <-> status r = 200%Z /\ has_message body = inr true)
  /\ (forall j, job r = Some j -> j = extract body).
Proof.
  apply (post_webhook_replies
           (notification "1055" "353861234567" (text_message "353861234567" "Hi"))).
  vm_compute. reflexivity.
Defined.

Lemma notification_has_message (pid wa_id : string) (message : value) :
  has_message (notification pid wa_id message) = inr (truthy message).
Proof. reflexivity. Qed.

(** On a notification, [extract] comes down to reading the message. *)
Lemma extract_notification (pid wa_id : string) (message : value) :
  extract (notification pid wa_id message)
  = Json.bind (get message "from") (fun from =>
    Json.bind (get message "text") (fun text =>
    Json.bind (get text "body") (fun user_question =>
    inr {| phone_number_id := JStr pid;
           user_number_id := JStr wa_id;
           from := from;
           user_question := user_question |}))).
Proof. reflexivity. Qed.

Lemma post_notification (pid wa_id : string) (message : value) :
  post_webhook (notification pid wa_id message)
  = inr (if truthy message
         then {| status := 200;
                 job := Some (extract (notification pid wa_id message)) |}
         else {| status := 200; job := None |}).
Proof.
  unfold post_webhook.
  change (get (notification pid wa_id message) "object")
    with (inr (B:=value) (A:=exn) (JStr "whatsapp_business_account")).
  simpl Json.bind. rewrite notification_has_message. simpl.
  destruct (truthy message); reflexivity.
Qed.

(** A notification whose first message is an object with a [text]
    object is answered 200 and starts a turn on the sender, the channel
    and the text read from it. *)
Theorem text_notification_starts_turn
        (pid wa_id : string) (message text : gmap string value) :
  message !! "text" = Some (JObj text) ->
  post_webhook (notification pid wa_id (JObj message))
  = inr {| status := 200;
           job := Some (inr {| phone_number_id := JStr pid;
                               user_number_id := JStr wa_id;
                               from := default JUndefined (message !! "from");
                               user_question := default JUndefined (text !! "body") |}) |}.
Proof.
  intros Htext. rewrite post_notification, extract_notification. simpl truthy.
  unfold get at 1 2. unfold Json.bind at 1 2. rewrite Htext.
  reflexivity.
Qed.

Lemma text_notification_starts_turn_witness :
  post_webhook (notification "1055" "353861234567" (text_message "353861234567" "Hi"))
  = inr {| status := 200;
           job := Some (inr {| phone_number_id := JStr "1055";
                               user_number_id := JStr "353861234567";
                               from := JStr "353861234567";
                               user_question := JStr "Hi" |}) |}.
Proof.
  assert (Htext :
    (<["from" := JStr "353861234567"]>
       (<["text" := JObj (<["body" := JStr "Hi"]> ∅)]> ∅) : gmap string value)
    !! "text" = Some (JObj (<["body" := JStr "Hi"]> ∅))) by reflexivity.
  exact (text_notification_starts_turn "1055" "353861234567" _ _ Htext).
Defined.

(** A notification whose first message has no [text] (an image, a
    location, ...) is still answered 200, but the turn throws while
    reading the body, before anything is sent. *)
Theorem textless_notification_is_dropped
        (pid wa_id : string) (message : gmap string value) :
  message !! "text" = None \/ message !! "text" = Some JNull ->
  post_webhook (notification pid wa_id (JObj message))
  = inr {| status := 200; job := Some (inl TypeError) |}.
Proof.
  intros Htext. rewrite post_notification, extract_notification. simpl truthy.
  unfold get at 1 2. unfold Json.bind at 1 2.
  destruct Htext as [-> | ->]; reflexivity.
Qed.

Lemma textless_notification_is_dropped_witness :
  post_webhook (notification "1055" "353861234567"
                  (JObj (<["from" := JStr "353861234567"]>
                         (<["type" := JStr "image"]> ∅))))
  = inr {| status := 200; job := Some (inl TypeError) |}.
Proof.
  apply (textless_notification_is_dropped "1055" "353861234567"
           (<["from" := JStr "353861234567"]> (<["type" := JStr "image"]> ∅))).
  left. reflexivity.
Defined.

(** A body with a truthy [object] and a truthy [entry] that has no first
    element (an empty array, an empty object, a number) makes the handler
    itself throw: no status is sent by it. *)
Theorem post_webhook_throws_without_first_entry
        (fields : gmap string value) (object entry : value) :
  fields !! "object" = Some object ->
  truthy object = true ->
  fields !! "entry" = Some entry ->
  truthy entry = true ->
  first entry = inr JUndefined \/ first entry = inr JNull ->
  post_webhook (JObj fields) = inl TypeError.
Proof.
  intros Hobject Hto Hentry Hte Hfirst.
  unfold post_webhook, has_message, get at 1 2.
  rewrite Hobject, Hentry. simpl. rewrite Hto, Hte.
  destruct Hfirst as [-> | ->]; reflexivity.
Qed.

Lemma post_webhook_throws_without_first_entry_witness :
  post_webhook (JObj (<["object" := JStr "whatsapp_business_account"]>
                      (<["entry" := JArr []]> ∅)))
  = inl TypeError.
Proof.
  apply (post_webhook_throws_without_first_entry
           (<["object" := JStr "whatsapp_business_account"]>
            (<["entry" := JArr []]> ∅))
           (JStr "whatsapp_business_account") (JArr []));
    try reflexivity.
  left. reflexivity.
Defined.

End WebhookFacts.

(** ** main.js: a message from the cache check to the reply *)

Module MainFacts.
Import Database Main Webhook.

Section Turn.

Variable compareSync : string -> string -> bool.
Variable hashSync : string -> nat -> string -> string.
Variable readFile : string -> option string.
Variable similarity : string -> string -> string.
Variable keys : gmap string string -> list string.

Hypothesis compare_hash :
  forall data rounds salt, compareSync data (hashSync data rounds salt) = true.
Hypothesis keys_stored :
  forall (store : gmap string string) k, k ∈ keys store <-> is_Some (store !! k).

Local Abbreviation checkCache := (Cache.checkCache similarity keys).
Local Abbreviation main := (Webhook.main compareSync hashSync readFile similarity keys).
Local Abbreviation known raw w :=
  (found (checkDatabase compareSync raw (users w))).

(** The world after the acknowledgement "Answering: ..." and the
    sender's resolution. *)
Local Abbreviation acknowledged salt thread raw question w :=
  (if known raw w
   then send (String.append "Answering: " question) w
   else {| users := users w ++ [Main.record_of hashSync (raw%string, salt, thread)];
           cache := cache w;
           outbox := outbox (onboarding readFile
                               (send (String.append "Answering: " question) w));
           console := console w |}).

Lemma hit_response (query : string) (store : gmap string string) :
  Cache.found (checkCache query store) = true ->
  exists k v, store !! k = Some v /\ similarity query k = "yes"
              /\ Cache.response (checkCache query store) = Some v.
Proof.
  unfold Cache.checkCache.
  destruct (LookupFacts.scan_cases similarity query store (keys store))
    as [[Hall ->] | (l1 & key & l2 & Hks & Hl1 & Hkey & ->)]; simpl;
    [discriminate|].
  intros _. destruct (proj1 (keys_stored store key)) as [v Hv].
  { rewrite Hks. apply elem_of_app. right. left. }
  exists key, v. rewrite Hv. auto.
Qed.

Lemma main_on_hit
      (fuel : nat) (salt thread : string) (retrieve : nat -> string)
      (answer : string) (set_ok : bool)
      (phone_number_id user_number_id from user_question : string) (w : world)
      (v : string) :
  Cache.found (checkCache user_question (cache w)) = true ->
  Cache.response (checkCache user_question (cache w)) = Some v ->
  main fuel salt thread retrieve answer set_ok
    phone_number_id user_number_id from user_question w
  = {| stands :=
         Logged (acknowledged salt thread user_number_id user_question w)
           {| query_exists := true;
              query_message := user_question;
              user_exists := known user_number_id w;
              user_id := hashSync user_number_id saltRounds salt;
              thread_id := thread |};
       cached := Some (Some v) |}.
Proof.
  intros Hhit Hresp. unfold Webhook.main, Main.chatbot.
  rewrite (TurnFacts.resolve_total compareSync hashSync readFile compare_hash).
  change (cache (send (String.append "Answering: " user_question) w))
    with (cache w).
  rewrite Hhit, Hresp. simpl.
  destruct (known user_number_id w); reflexivity.
Qed.

Lemma onboarding_keeps_sent (w : world) :
  outbox w `prefix_of` outbox (onboarding readFile w).
Proof.
  unfold onboarding. destruct (readFile "./GDPR.txt") as [gdpr|]; [|reflexivity].
  destruct (readFile "./how-to-use.txt") as [howto|]; simpl.
  - exists [gdpr; howto]. now rewrite <- app_assoc.
  - exists [gdpr]. reflexivity.
Qed.



End Turn.



End MainFacts.
